(** * horas-registro-civil: slot normalisation, extraction and session workflow

    A shallow embedding of the SRCEI appointment scraper:
    - [src/services/srcei/recommender.py]: date parsing and slot sorting;
    - [src/services/srcei/client.py]: the browser session (login, procedure
      and region selection), the in-page extraction script and the
      duplicate filter;
    - [src/api/routers/slots.py]: the request handler around them.

    Text is modelled as [string] (a sequence of bytes; non-ASCII text is its
    UTF-8 encoding).  Python exceptions are values of [py_exn] carried in the
    left summand of a sum. *)

From Stdlib Require Import Ascii DecimalString.
From stdpp Require Import gmap strings list sorting.


(** ** Python exceptions and results *)

Inductive py_exn : Type :=
  | MustLoginFirst                (* ValueError("Must login first") *)
  | UnpackError (got : nat)       (* ValueError of [a, b, c = parts] with [got] parts *)
  | IndexError                    (* [list index out of range] *)
  | ValidationError               (* pydantic rejecting a field *)
  | TypeError                     (* a call that lacks a required argument *)
  | PlaywrightError (msg : string)  (* anything raised by a browser call *)
  | HTTPError (status_code : nat) (detail : string). (* fastapi.HTTPException *)

Global Instance py_exn_eq_dec : EqDecision py_exn.
Proof. solve_decision. Defined.

Definition result (A : Type) : Type := py_exn + A.

Definition raise {A} (e : py_exn) : result A := inl e.
Definition ok {A} (a : A) : result A := inr a.

Definition rbind {A B} (r : result A) (f : A → result B) : result B :=
  match r with
  | inl e => inl e
  | inr a => f a
  end.

Definition raises {A} (r : result A) : Prop := ∃ e, r = inl e.

(** ** Characters and strings *)

Definition is_digit (c : ascii) : bool :=
  match Ascii.is_nat c with Some _ => true | None => false end.

Definition digit_value (c : ascii) : nat := default 0 (Ascii.is_nat c).

Fixpoint all_chars (p : ascii → bool) (s : string) : bool :=
  match s with
  | "" => true
  | String c r => p c && all_chars p r
  end.

Fixpoint count_char (c : ascii) (s : string) : nat :=
  match s with
  | "" => 0
  | String a r => (if decide (a = c) then 1 else 0) + count_char c r
  end.

(** [s.split(sep)] for a one-character separator, in Python and in
    JavaScript alike: the pieces between the separators, empty pieces kept;
    a string without separator is its own single piece. *)
Fixpoint split_on (sep : ascii) (s : string) : list string :=
  match s with
  | "" => [""]
  | String c r =>
      if decide (c = sep) then "" :: split_on sep r
      else match split_on sep r with
           | [] => [String c ""]
           | w :: ws => String c w :: ws
           end
  end.

Fixpoint zeros (n : nat) : string :=
  match n with
  | O => ""
  | S k => String "0" (zeros k)
  end.

(** A byte of the form 10xxxxxx continues a character of the UTF-8
    encoding; every other byte starts one. *)
Definition is_continuation (c : ascii) : bool :=
  match c with
  | Ascii _ _ _ _ _ _ false true => true
  | _ => false
  end.

(** [len(s)] of a Python string: its number of characters. *)
Fixpoint py_len (s : string) : nat :=
  match s with
  | "" => 0
  | String c r => (if is_continuation c then 0 else 1) + py_len r
  end.

(** [str.zfill(width)]: a string of at least [width] characters is returned
    as it is; a shorter one is padded with zeros on the left, after a
    leading sign. *)
Definition zfill (width : nat) (s : string) : string :=
  if decide (width ≤ py_len s) then s
  else match s with
       | String c r =>
           if decide (c = "+"%char ∨ c = "-"%char)
           then String c (zeros (width - py_len s) +:+ r)
           else zeros (width - py_len s) +:+ s
       | "" => zeros width
       end.

(** ** recommender.py *)

(** A slot dictionary as the extraction script builds it. *)
Record slot : Type := Slot {
  nombreOficina : string;
  direccionOficina : string;
  fechaDisponible : string;
  horaDisponible : string;
  idOficina : string
}.

Global Instance slot_eq_dec : EqDecision slot.
Proof. solve_decision. Defined.

(** [day, month, year = fecha_disponible.split("/")] raises [ValueError]
    unless the split has exactly three parts. *)
Definition parse_slot_date (fecha_disponible : string) : result string :=
  match split_on "/" fecha_disponible with
  | [day; month; year] => ok (year +:+ "-" +:+ zfill 2 month +:+ "-" +:+ zfill 2 day)
  | parts => raise (UnpackError (length parts))
  end.

Definition format_slot_datetime (s : slot) : result string :=
  rbind (parse_slot_date (fechaDisponible s)) (λ iso_date,
  let time_str := horaDisponible s in
  ok (iso_date +:+ " " +:+ time_str)).

Definition format_slot_datetime_iso (s : slot) : result string :=
  rbind (parse_slot_date (fechaDisponible s)) (λ iso_date,
  let time_str := horaDisponible s in
  ok (iso_date +:+ "T" +:+ time_str +:+ ":00")).

(** [sorted(xs, key=f)]: Python first computes the key of every element, in
    list order (the first exception aborts the call), then sorts by key
    with a stable sort, comparing strings by code point.  A stable sort has
    one possible output, so insertion from the right stands for it. *)
Fixpoint keyed {A} (key : A → result string) (l : list A) : result (list (string * A)) :=
  match l with
  | [] => ok []
  | x :: r =>
      rbind (key x) (λ k,
      rbind (keyed key r) (λ kr, ok ((k, x) :: kr)))
  end.

Fixpoint insert_by_key {A} (x : string * A) (l : list (string * A)) : list (string * A) :=
  match l with
  | [] => [x]
  | y :: r =>
      if String.leb x.1 y.1 then x :: y :: r else y :: insert_by_key x r
  end.

Fixpoint sort_keyed {A} (l : list (string * A)) : list (string * A) :=
  match l with
  | [] => []
  | x :: r => insert_by_key x (sort_keyed r)
  end.

Definition py_sorted {A} (key : A → result string) (l : list A) : result (list A) :=
  rbind (keyed key l) (λ kl, ok (sort_keyed kl).*2).

Definition sort_slots_by_datetime (slots : list slot) : result (list slot) :=
  py_sorted format_slot_datetime slots.

(** ** Text helpers shared by the client and its in-page script *)

(** [needle in hay] (Python) and [hay.includes(needle)] (JavaScript). *)
Fixpoint contains (needle hay : string) : bool :=
  String.prefix needle hay ||
  match hay with
  | "" => false
  | String _ r => contains needle r
  end.

Definition lower_char (c : ascii) : ascii :=
  let n := nat_of_ascii c in
  if (65 <=? n) && (n <=? 90) then ascii_of_nat (n + 32) else c.

(** [s.lower()] and [s.toLowerCase()].  Only the letters A-Z change; every
    use in the program compares the result with text made of the letters
    a-z other than k, which no character outside A-Z lowers to. *)
Fixpoint lower (s : string) : string :=
  match s with
  | "" => ""
  | String c r => String (lower_char c) (lower r)
  end.

(** The text whose bytes have these codes. *)
Definition utf8 (codes : list nat) : string :=
  String.string_of_list_ascii (ascii_of_nat <$> codes).

(** The white-space characters that Python and JavaScript share, in their
    UTF-8 encoding: U+0009 to U+000D, U+0020, U+00A0, U+1680, U+2000 to
    U+200A, U+2028, U+2029, U+202F, U+205F and U+3000. *)
Definition white_space : list string :=
  ((λ c, utf8 [c]) <$> [9; 10; 11; 12; 13; 32])
  ++ [utf8 [194; 160]; utf8 [225; 154; 128]]
  ++ ((λ k, utf8 [226; 128; 128 + k]) <$> seq 0 11)
  ++ [utf8 [226; 128; 168]; utf8 [226; 128; 169]; utf8 [226; 128; 175];
      utf8 [226; 129; 159]; utf8 [227; 128; 128]].

(** JavaScript adds U+FEFF. *)
Definition js_white_space : list string := white_space ++ [utf8 [239; 187; 191]].

(** Python adds U+001C to U+001F and U+0085. *)
Definition py_white_space : list string :=
  white_space ++ ((λ c, utf8 [c]) <$> [28; 29; 30; 31]) ++ [utf8 [194; 133]].

(** The number of bytes of the white-space character that [s] starts with;
    0 when it starts with none. *)
Definition space_width (table : list string) (s : string) : nat :=
  match List.find (λ w, String.prefix w s) table with
  | Some w => String.length w
  | None => 0
  end.

(** [trim_start_go skip s] drops [skip] bytes, the rest of a white-space
    character, and then every white-space character that follows. *)
Fixpoint trim_start_go (skip : nat) (s : string) : string :=
  match s with
  | "" => ""
  | String c r =>
      match skip with
      | S k => trim_start_go k r
      | O =>
          match space_width js_white_space (String c r) with
          | S k => trim_start_go k r
          | O => String c r
          end
      end
  end.

Definition trim_start (s : string) : string := trim_start_go 0 s.

(** The text up to the point from which only white space follows. *)
Fixpoint trim_end (s : string) : string :=
  match s with
  | "" => ""
  | String c r => if String.eqb (trim_start (String c r)) "" then "" else String c (trim_end r)
  end.

(** [t.trim()] *)
Definition trim (s : string) : string := trim_end (trim_start s).

Definition truthy (s : string) : bool := negb (String.eqb s "").

(** [String(n)] of a non-negative integer. *)
Definition decimal (n : N) : string := NilZero.string_of_uint (N.to_uint n).

(** [s.padStart(width, c)] for a one-character filler. *)
Fixpoint repeat_char (c : ascii) (n : nat) : string :=
  match n with
  | O => ""
  | S k => String c (repeat_char c k)
  end.

Definition padStart (width : nat) (c : ascii) (s : string) : string :=
  repeat_char c (width - String.length s) +:+ s.

(** [parseInt(line)] on a line already known to be all digits. *)
Definition parseInt (s : string) : nat :=
  foldl (λ n c, 10 * n + digit_value c) 0 (String.list_ascii_of_string s).

(** ** client.py: the in-page extraction script *)

(** [/^\d{1,2}$/.test(line)] *)
Definition one_or_two_digits (line : string) : bool :=
  match String.list_ascii_of_string line with
  | [a] => is_digit a
  | [a; b] => is_digit a && is_digit b
  | _ => false
  end.

Definition is_day_line (line : string) : bool :=
  one_or_two_digits line && (1 <=? parseInt line) && (parseInt line <=? 31).

Definition monthNames : list string :=
  ["Enero"; "Febrero"; "Marzo"; "Abril"; "Mayo"; "Junio";
   "Julio"; "Agosto"; "Septiembre"; "Octubre"; "Noviembre"; "Diciembre"].

Definition is_month_line (line : string) : bool :=
  existsb (λ m, String.eqb (lower line) (lower m)) monthNames.

(** [/^\d{1,2}:\d{2}$/.test(line)] *)
Definition is_time_line (line : string) : bool :=
  match String.list_ascii_of_string line with
  | [a; c; m1; m2] => is_digit a && bool_decide (c = ":"%char) && is_digit m1 && is_digit m2
  | [a; b; c; m1; m2] =>
      is_digit a && is_digit b && bool_decide (c = ":"%char) && is_digit m1 && is_digit m2
  | _ => false
  end.

Definition monthMap : gmap string string :=
  list_to_map
    [("enero", "01"); ("febrero", "02"); ("marzo", "03"); ("abril", "04");
     ("mayo", "05"); ("junio", "06"); ("julio", "07"); ("agosto", "08");
     ("septiembre", "09"); ("octubre", "10"); ("noviembre", "11"); ("diciembre", "12")].

(** The three variables [day], [month], [time] of the scan loop. *)
Record tokens : Type := Tokens { tok_day : string; tok_month : string; tok_time : string }.

(** One turn of [for (const line of lines)]: three independent tests, each
    assigning its variable when the line matches. *)
Definition scan_line (t : tokens) (line : string) : tokens :=
  let t := if is_day_line line then Tokens line (tok_month t) (tok_time t) else t in
  let t := if is_month_line line then Tokens (tok_day t) line (tok_time t) else t in
  if is_time_line line then Tokens (tok_day t) (tok_month t) line else t.

Definition scan_lines (lines : list string) : tokens :=
  foldl scan_line (Tokens "" "" "") lines.

(** [text.split('\n').map(t => t.trim()).filter(t => t)] *)
Definition card_lines (text : string) : list string :=
  filter (λ t, truthy t = true) (trim <$> split_on "010" text).

(** What the script pushes for a card with these lines, if anything. *)
Definition card_record (year : N) (lines : list string) : option slot :=
  let officeName := default "" (lines !! 0) in
  let address := default "" (lines !! 1) in
  let t := scan_lines lines in
  if truthy officeName && truthy (tok_day t) && truthy (tok_month t) then
    let dayPadded := padStart 2 "0" (tok_day t) in
    let monthNum :=
      match monthMap !! lower (tok_month t) with
      | Some v => if truthy v then v else "01"
      | None => "01"
      end in
    Some {| nombreOficina := officeName;
            direccionOficina := address;
            fechaDisponible := dayPadded +:+ "/" +:+ monthNum +:+ "/" +:+ decimal year;
            horaDisponible := if truthy (tok_time t) then tok_time t else "00:00";
            idOficina := "" |}
  else None.

(** The body of [cards.forEach]: a card without the word Agendar is left. *)
Definition card_slot (year : N) (text : string) : option slot :=
  if negb (contains "Agendar" text) then None
  else card_record year (card_lines text).

(** What [page.evaluate] sees: the [innerText] of every element the card
    selector matches, in document order, and the year of the clock. *)
Record dom_snapshot : Type := Dom { cards : list string; current_year : N }.

Definition extract_slots (d : dom_snapshot) : list slot :=
  omap (card_slot (current_year d)) (cards d).

(** ** client.py: duplicate removal *)

Definition dedup_key (s : slot) : string :=
  nombreOficina s +:+ "_" +:+ fechaDisponible s +:+ "_" +:+ horaDisponible s.

(** One turn of [for slot in slots_data], on the pair
    [(seen, unique_slots)]. *)
Definition dedup_step (st : gset string * list slot) (s : slot) : gset string * list slot :=
  let key := dedup_key s in
  if decide (key ∈ st.1) then st
  else ({[key]} ∪ st.1, st.2 ++ [s]).

Definition remove_duplicates (slots_data : list slot) : list slot :=
  (foldl dedup_step (∅, []) slots_data).2.

(** ** The browser as an environment

    Every Playwright call, [asyncio.sleep] and clock read is a [call]; its
    index is the type of the answer.  A call that can raise answers with a
    [result].  A method of the client is a finite tree of calls ([prog]),
    and an [env] fixes the answers from the calls made so far. *)

Definition handle : Type := nat.

Inductive call : Type → Type :=
  | StartPlaywright : call (result unit)
  | Launch : call (result unit)
  | NewContext : call (result unit)
  | NewPage : call (result unit)
  | AddInitScript : call (result unit)
  | ClosePage : call (result unit)
  | CloseContext : call (result unit)
  | CloseBrowser : call (result unit)
  | StopPlaywright : call (result unit)
  | Goto (url wait_until : string) : call (result unit)
  | Sleep (seconds : nat) : call unit
  | Title : call (result string)
  | CurrentUrl : call string
  | WaitForSelector (selector : string) (timeout : N) : call (result unit)
  | Fill (selector value : string) : call (result unit)
  | Click (selector : string) (timeout : option N) : call (result unit)
  | WaitForLoadState (state : string) : call (result unit)
  | QuerySelectorAll (selector : string) : call (result (list handle))
  | InnerText (h : handle) : call (result string)
  | ClickHandle (h : handle) : call (result unit)
  | QuerySelector (selector : string) : call (result (option handle))
  | SelectOption (selector value : string) : call (result unit)
  | EvaluateSlotScript : call (result dom_snapshot)
  | UtcNow : call N.

Inductive prog (A : Type) : Type :=
  | Ret (a : A)
  | Do {T : Type} (c : call T) (k : T → prog A).

Global Arguments Ret {A} a.
Global Arguments Do {A T} c k.

Fixpoint pbind {A B} (p : prog A) (f : A → prog B) : prog B :=
  match p with
  | Ret a => f a
  | Do c k => Do c (λ r, pbind (k r) f)
  end.

(** A call that was made, with the answer it got. *)
Record event : Type := Event { ev_type : Type; ev_call : call ev_type; ev_answer : ev_type }.
Global Arguments Event {ev_type} ev_call ev_answer.

Definition env : Type := list event → ∀ T, call T → T.

(** Run a program in an environment, after the events [hist]; the result
    comes with the extended history. *)
Fixpoint run {A} (world : env) (hist : list event) (p : prog A) : A * list event :=
  match p with
  | Ret a => (a, hist)
  | Do c k =>
      let r := world hist _ c in
      run world (hist ++ [Event c r]) (k r)
  end.

(** The attributes of [SRCEIPlaywrightClient] that the methods read or
    write: whether [self.page] is set, and [self.is_authenticated].
    [self.playwright], [self.browser] and [self.context] are assigned by
    [start_browser] before the page and never cleared, so they are set
    whenever the page is. *)
Record session : Type := Session { has_page : bool; is_authenticated : bool }.

Definition method (A : Type) : Type := session → prog (result A * session).

Definition ret_m {A} (a : A) : method A := λ s, Ret (ok a, s).
Definition raise_m {A} (e : py_exn) : method A := λ s, Ret (raise e, s).

Definition bind_m {A B} (m : method A) (f : A → method B) : method B :=
  λ s, pbind (m s) (λ rs,
    match rs.1 with
    | inl e => Ret (inl e, rs.2)
    | inr a => f a rs.2
    end).

Notation "x <- m ;; k" := (bind_m m (λ x, k))
  (at level 100, m at next level, right associativity).
Notation "m ;;; k" := (bind_m m (λ _, k))
  (at level 100, right associativity).

(** [await c] for a call that may raise, [perform c] for one that cannot. *)
Definition await {T} (c : call (result T)) : method T := λ s, Do c (λ r, Ret (r, s)).
Definition perform {T} (c : call T) : method T := λ s, Do c (λ r, Ret (ok r, s)).

Definition lift {A} (r : result A) : method A := λ s, Ret (r, s).

(** [try: m  except Exception: h] *)
Definition try_except {A} (m : method A) (h : py_exn → method A) : method A :=
  λ s, pbind (m s) (λ rs,
    match rs.1 with
    | inl e => h e rs.2
    | inr a => Ret (inr a, rs.2)
    end).

Definition get_session : method session := λ s, Ret (ok s, s).
Definition set_authenticated (b : bool) : method unit :=
  λ s, Ret (ok tt, Session (has_page s) b).
Definition set_page (b : bool) : method unit :=
  λ s, Ret (ok tt, Session b (is_authenticated s)).

(** ** config.py and the methods of client.py *)

Record SRCEIConfig : Type := Config { rut : string; password : string }.

(** The field validator [rut_must_contain_dash]. *)
Definition make_config (rut password : string) : result SRCEIConfig :=
  if contains "-" rut then ok (Config rut password) else raise ValidationError.

Definition dq : string := String "034" "".

Definition BASE_URL : string := "https://solicitudeswebrc.srcei.cl/ReservaDeHoraSRCEI".

(** [self.config.validate()] in [__init__]: pydantic declares [validate] as a
    class method that takes the value to validate; the constructor calls it
    without that argument, which Python answers with [TypeError]. *)
Definition validate (config : SRCEIConfig) : result unit := raise TypeError.

(** [SRCEIPlaywrightClient(config, headless=True)] *)
Definition new_client (config : SRCEIConfig) : result session :=
  rbind (validate config) (λ _, ok (Session false false)).

(** The engine, the browser, the context and the page are started one
    after the other; [self.page] is assigned before the init script is
    added. *)
Definition start_browser : method unit :=
  await StartPlaywright;;;
  await Launch;;;
  await NewContext;;;
  await NewPage;;;
  set_page true;;;
  await AddInitScript.

(** [close()]: what is set is closed, the page first.  The code tests each
    of the four attributes; only [__aexit__] calls it, on a client whose
    [start_browser] has completed, where all four are set, and on a new
    client none is. *)
Definition close : method unit :=
  s <- get_session;;
  if has_page s then
    await ClosePage;;;
    await CloseContext;;;
    await CloseBrowser;;;
    await StopPlaywright
  else ret_m tt.

Definition login (config : SRCEIConfig) : method bool :=
  s <- get_session;;
  (if negb (has_page s) then start_browser else ret_m tt);;;
  try_except
    (await (Goto (BASE_URL +:+ "/web/init.srcei") "networkidle");;;
     perform (Sleep 1);;;
     title <- await Title;;
     if contains "Request Rejected" title then ret_m false
     else
       await (WaitForSelector ("input[name=" +:+ dq +:+ "run" +:+ dq +:+ "]") 10000%N);;;
       await (Fill ("input[name=" +:+ dq +:+ "run" +:+ dq +:+ "]") (rut config));;;
       await (Fill ("input[name=" +:+ dq +:+ "pass" +:+ dq +:+ "]") (password config));;;
       await (Click ("button[type=" +:+ dq +:+ "submit" +:+ dq +:+ "], input[type="
                     +:+ dq +:+ "submit" +:+ dq +:+ "], .btn-primary") None);;;
       await (WaitForLoadState "networkidle");;;
       perform (Sleep 2);;;
       current_url <- perform CurrentUrl;;
       title <- await Title;;
       if contains "seleccion" (lower current_url) || contains "Reserva de Hora" title
       then set_authenticated true;;; ret_m true
       else ret_m false)
    (λ _, ret_m false).

Definition procedure_map : gmap string string :=
  list_to_map
    [("6", "Renovación Chileno/a"); ("9", "Reimpresión cédula");
     ("10", "Renovación Extranjero/a"); ("11", "Solicitud de Pasaporte");
     ("12", "Menores de Edad"); ("13", "Apostilla");
     ("14", "Rectificaciones"); ("15", "Vehículos")].

Definition procedure_selectors (procedure_name : string) : list string :=
  ["button:has-text(" +:+ dq +:+ procedure_name +:+ dq +:+ ")";
   "text=" +:+ dq +:+ procedure_name +:+ dq;
   "button:text-is(" +:+ dq +:+ procedure_name +:+ dq +:+ ")"].

(** [for selector in selectors: try: click; clicked = True; break
     except Exception: continue] *)
Fixpoint click_first (selectors : list string) : method bool :=
  match selectors with
  | [] => ret_m false
  | selector :: rest =>
      try_except (await (Click selector (Some 3000%N));;; ret_m true)
                 (λ _, click_first rest)
  end.

Definition cons_word (w : string) (ws : list string) : list string :=
  if String.eqb w "" then ws else w :: ws.

(** The word that [s] starts with and the words after it; [skip] bytes at
    the head of [s] are the rest of a white-space character. *)
Fixpoint split_ws_go (skip : nat) (s : string) : string * list string :=
  match s with
  | "" => ("", [])
  | String c r =>
      match skip with
      | S k => let wr := split_ws_go k r in ("", cons_word wr.1 wr.2)
      | O =>
          match space_width py_white_space (String c r) with
          | S k => let wr := split_ws_go k r in ("", cons_word wr.1 wr.2)
          | O => let wr := split_ws_go 0 r in (String c wr.1, wr.2)
          end
      end
  end.

(** [s.split()]: the words between runs of white space. *)
Definition split_ws (s : string) : list string :=
  let wr := split_ws_go 0 s in cons_word wr.1 wr.2.

(** [for btn in buttons: text = await btn.inner_text()
     if procedure_name.split()[0] in text: await btn.click(); clicked = True; break] *)
Fixpoint click_button_by_text (procedure_name : string) (buttons : list handle) : method bool :=
  match buttons with
  | [] => ret_m false
  | btn :: rest =>
      text <- await (InnerText btn);;
      first_word <- lift (match split_ws procedure_name with
                           | w :: _ => ok w
                           | [] => raise IndexError
                           end);;
      if contains first_word text then await (ClickHandle btn);;; ret_m true
      else click_button_by_text procedure_name rest
  end.

Definition select_procedure (procedure_id : string) : method bool :=
  s <- get_session;;
  if negb (is_authenticated s) then raise_m MustLoginFirst
  else
    let procedure_name := default procedure_id (procedure_map !! procedure_id) in
    try_except
      (clicked <- click_first (procedure_selectors procedure_name);;
       clicked <- (if negb clicked then
                     buttons <- await (QuerySelectorAll "button.btn");;
                     click_button_by_text procedure_name buttons
                   else ret_m clicked);;
       if clicked then
         await (WaitForLoadState "networkidle");;;
         perform (Sleep 1);;;
         ret_m true
       else ret_m false)
      (λ _, ret_m false).

Definition region_selectors : list string :=
  ["select"; "select[name=" +:+ dq +:+ "idRegion" +:+ dq +:+ "]";
   "select#idRegion"; "select.form-control"].

(** [for selector in selectors: try: elem = query_selector(selector)
     if elem: select_option(selector, region_id); selected = True; break
     except Exception: continue] *)
Fixpoint select_first (region_id : string) (selectors : list string) : method bool :=
  match selectors with
  | [] => ret_m false
  | selector :: rest =>
      selected <- try_except
                    (select_elem <- await (QuerySelector selector);;
                     match select_elem with
                     | Some _ => await (SelectOption selector region_id);;; ret_m true
                     | None => ret_m false
                     end)
                    (λ _, ret_m false);;
      if selected then ret_m true else select_first region_id rest
  end.

Definition select_region (region_id : string) : method bool :=
  try_except
    (perform (Sleep 1);;;
     selected <- select_first region_id region_selectors;;
     if negb selected then ret_m false
     else
       perform (Sleep 1);;;
       await (WaitForLoadState "networkidle");;;
       ret_m true)
    (λ _, ret_m false).

Definition get_slots_by_region (procedure_id region_id : string) : method (list slot) :=
  s <- get_session;;
  if negb (is_authenticated s) then raise_m MustLoginFirst
  else
    selected <- select_procedure procedure_id;;
    if negb selected then ret_m []
    else
      selected <- select_region region_id;;
      if negb selected then ret_m []
      else
        try_except
          (perform (Sleep 2);;;
           slots_data <- await EvaluateSlotScript;;
           ret_m (remove_duplicates (extract_slots slots_data)))
          (λ _, ret_m []).

(** ** schemas/slots.py and api/routers/slots.py *)

Record SlotResponse : Type := {
  office_name : string;
  office_address : string;
  date : string;
  time : string;
  datetime_iso : string;
  office_id : string
}.

Record SlotListResponse : Type := {
  slots : list SlotResponse;
  count : nat;
  procedure_id : string;
  region_id : string;
  scraped_at : N
}.

(** How a request ends: with a response, or with a raised [HTTPException].
    For status 500 the detail is the fixed prefix and [cause] is the
    exception whose text follows it. *)
Inductive http_outcome : Type :=
  | Returned (r : SlotListResponse)
  | Raised (status_code : nat) (detail : string) (cause : option py_exn).

Definition to_slot_response (s : slot) : result SlotResponse :=
  rbind (format_slot_datetime_iso s) (λ iso,
  ok {| office_name := nombreOficina s;
        office_address := direccionOficina s;
        date := fechaDisponible s;
        time := horaDisponible s;
        datetime_iso := iso;
        office_id := idOficina s |}).

Fixpoint map_result {A B} (f : A → result B) (l : list A) : result (list B) :=
  match l with
  | [] => ok []
  | x :: r => rbind (f x) (λ y, rbind (map_result f r) (λ ys, ok (y :: ys)))
  end.

(** From [if not raw_slots] to the final [return] of the handler. *)
Definition slot_list_response (procedure_id region_id : string) (raw_slots : list slot)
    : method SlotListResponse :=
  match raw_slots with
  | [] =>
      now <- perform UtcNow;;
      ret_m {| slots := []; count := 0; procedure_id := procedure_id;
               region_id := region_id; scraped_at := now |}
  | _ =>
      sorted_slots <- lift (sort_slots_by_datetime raw_slots);;
      slot_responses <- lift (map_result to_slot_response sorted_slots);;
      now <- perform UtcNow;;
      ret_m {| slots := slot_responses; count := length slot_responses;
               procedure_id := procedure_id; region_id := region_id;
               scraped_at := now |}
  end.

(** [async with client:] [__aenter__] starts the browser; once it has
    returned, [__aexit__] closes the client on every way out of the body.
    An exception of the body goes on after the close, unless the close
    raises one of its own. *)
Definition async_with {A} (body : method A) : method A :=
  start_browser;;;
  λ s, pbind (body s) (λ rs,
    pbind (close rs.2) (λ cs,
      match cs.1 with
      | inl e => Ret (inl e, cs.2)
      | inr _ => Ret (rs.1, cs.2)
      end)).

(** The two [except] clauses of the handler. *)
Definition handle_errors {A} (r : result A) : (nat * string * option py_exn) + A :=
  match r with
  | inr a => inr a
  | inl (HTTPError status_code detail) => inl (status_code, detail, None)
  | inl e => inl (500, "Internal server error: ", Some e)
  end.

Definition outcome (r : result SlotListResponse) : http_outcome :=
  match handle_errors r with
  | inr a => Returned a
  | inl (status_code, detail, cause) => Raised status_code detail cause
  end.

(** The body of the [async with] block of the handler. *)
Definition serve (config : SRCEIConfig) (procedure_id region_id : string)
    : method SlotListResponse :=
  logged_in <- login config;;
  if negb logged_in then raise_m (HTTPError 503 "Failed to authenticate with SRCEI")
  else
    raw_slots <- get_slots_by_region procedure_id region_id;;
    slot_list_response procedure_id region_id raw_slots.

(** [get_slots]: the settings give the credentials; the configuration and
    the client are built inside the [try], then the client is entered. *)
Definition get_slots (procedure_id region_id srcei_rut srcei_password : string)
    : prog http_outcome :=
  match rbind (make_config srcei_rut srcei_password) (λ config,
        rbind (new_client config) (λ client, ok (config, client))) with
  | inl e => Ret (outcome (raise e))
  | inr (config, client) =>
      pbind (async_with (serve config procedure_id region_id) client)
            (λ rs, Ret (outcome rs.1))
  end.

(** ** Vocabulary of the statements *)

(** The inverse of [split_on]: the parts with the separator between them. *)
Fixpoint join_with (sep : ascii) (parts : list string) : string :=
  match parts with
  | [] => ""
  | [w] => w
  | w :: ws => w +:+ String sep (join_with sep ws)
  end.

Definition digit_char (n : nat) : ascii := ascii_of_nat (48 + n).

(** A number below 100 written with two digits, zero-padded. *)
Definition two_digits (n : nat) : string :=
  String (digit_char (n / 10)) (String (digit_char (n mod 10)) "").

(** A day or month number given with one or two digits. *)
Definition written_as (n : nat) (s : string) : Prop :=
  s = two_digits n ∨ (n < 10 ∧ s = String (digit_char n) "").

Definition four_digits (s : string) : bool :=
  (String.length s =? 4) && all_chars is_digit s.

(** Ascending order of the sort keys of two records. *)
Definition datetime_le (a b : slot) : Prop :=
  ∃ ka kb, format_slot_datetime a = ok ka ∧ format_slot_datetime b = ok kb ∧ String.le ka kb.

(** A date text with exactly two separators. *)
Definition well_delimited (s : slot) : Prop := count_char "/" (fechaDisponible s) = 2.

Global Instance well_delimited_dec s : Decision (well_delimited s).
Proof. unfold well_delimited. apply _. Defined.

(** The three records of [test_sort_slots_by_datetime]. *)
Definition test_slots : list slot :=
  [Slot "B" "" "30/01/2026" "10:00" "";
   Slot "A" "" "29/01/2026" "15:00" "";
   Slot "C" "" "29/01/2026" "09:30" ""].

(** A date text D/M/Y whose day and month have one or two digits and whose
    year is in digits. *)
Definition is_slot_date (fecha : string) : bool :=
  match split_on "/" fecha with
  | [D; M; Y] => one_or_two_digits D && one_or_two_digits M && all_chars is_digit Y
  | _ => false
  end.

Definition well_formed (s : slot) : Prop := is_slot_date (fechaDisponible s) = true.

Global Instance well_formed_dec s : Decision (well_formed s).
Proof. unfold well_formed. apply _. Defined.

(** The ISO date of a date text D/M/Y: the year, the number of the month
    and the number of the day, the two numbers written with two digits. *)
Definition iso_date (fecha : string) : string :=
  match split_on "/" fecha with
  | [D; M; Y] => Y +:+ "-" +:+ two_digits (parseInt M) +:+ "-" +:+ two_digits (parseInt D)
  | _ => ""
  end.

(** The composed sortable text of a record: its ISO date, a blank and its
    time. *)
Definition composed_key (s : slot) : string :=
  iso_date (fechaDisponible s) +:+ " " +:+ horaDisponible s.

Definition key_ascending (a b : slot) : Prop :=
  String.le (composed_key a) (composed_key b).

(** Four records that the day-first date text orders otherwise than the
    calendar does. *)
Definition calendar_slots : list slot :=
  [Slot "A" "" "5/10/2026" "09:00" "";
   Slot "B" "" "20/9/2026" "09:00" "";
   Slot "C" "" "1/2/2026" "09:00" "";
   Slot "D" "" "31/1/2026" "09:00" ""].

(** A batch whose first record has a date without separators. *)
Definition malformed_batch : list slot :=
  [Slot "A" "" "29-01-2026" "09:30" ""; Slot "B" "" "30/01/2026" "10:00" ""].

(** Sorting that leaves the records with a malformed date out. *)
Definition sort_skipping_malformed (batch : list slot) : result (list slot) :=
  sort_slots_by_datetime (filter well_delimited batch).

(** The first and the last line of a kind, the empty text when there is
    none. *)
Definition first_match (p : string → bool) (lines : list string) : string :=
  default "" (head (filter (λ l, p l = true) lines)).

Definition last_match (p : string → bool) (lines : list string) : string :=
  default "" (last (filter (λ l, p l = true) lines)).

(** The scan as "first match of each kind wins" would have it. *)
Definition scan_first_wins (lines : list string) : tokens :=
  Tokens (first_match is_day_line lines)
         (first_match is_month_line lines)
         (first_match is_time_line lines).

(** A card that shows two days, two months and two times. *)
Definition two_date_card : list string :=
  ["Oficina Centro"; "Calle 1"; "5"; "Enero"; "09:00"; "7"; "Marzo"; "10:30"; "Agendar"].

(** The first line is there and is not blank. *)
Definition office_found (lines : list string) : Prop :=
  ∃ l rest, lines = l :: rest ∧ l ≠ "".

Definition token_found (p : string → bool) (lines : list string) : Prop :=
  Exists (λ l, p l = true) lines.

Global Instance token_found_dec p lines : Decision (token_found p lines).
Proof. unfold token_found. apply _. Defined.

(** What the extraction script writes as a date: two digits, two digits
    and a year in digits, with "/" between them. *)
Definition is_raw_date (d : string) : bool :=
  match split_on "/" d with
  | [dd; mm; yy] =>
      (String.length dd =? 2) && all_chars is_digit dd &&
      (String.length mm =? 2) && all_chars is_digit mm &&
      all_chars is_digit yy
  | _ => false
  end.

(** A raw slot record: its date is DD/MM/YYYY and its time is H:MM or
    HH:MM. *)
Definition raw_slot_ok (s : slot) : Prop :=
  is_raw_date (fechaDisponible s) = true ∧ is_time_line (horaDisponible s) = true.

Global Instance raw_slot_ok_dec s : Decision (raw_slot_ok s).
Proof. unfold raw_slot_ok. apply _. Defined.

(** The composite of office name, ISO date and time. *)
Definition slot_identity (s : slot) : string * result string * string :=
  (nombreOficina s, parse_slot_date (fechaDisponible s), horaDisponible s).

(** Keeping the first record seen of every key: a record stays when no
    record before it ([earlier], then the list so far) has its key. *)
Fixpoint first_seen {K} `{EqDecision K} (key : slot → K)
    (earlier : list slot) (l : list slot) : list slot :=
  match l with
  | [] => []
  | x :: r =>
      if decide (key x ∈ key <$> earlier) then first_seen key (earlier ++ [x]) r
      else x :: first_seen key (earlier ++ [x]) r
  end.

(** Three records, the first two of one office, date and time. *)
Definition repeated_slots : list slot :=
  [Slot "Oficina Centro" "Calle 1" "29/01/2026" "09:30" "";
   Slot "Oficina Centro" "Calle 1" "29/01/2026" "09:30" "17";
   Slot "Oficina Norte" "Calle 2" "29/01/2026" "09:30" ""].

(** ** Reading a history *)

(** A click, on a selector or on an element, that did not raise. *)
Definition click_succeeded (ev : event) : bool :=
  match ev with
  | Event c r =>
      match c in call T return T → bool with
      | Click _ _ => λ r, match r with inr _ => true | inl _ => false end
      | ClickHandle _ => λ r, match r with inr _ => true | inl _ => false end
      | _ => λ _, false
      end r
  end.

(** A call of the region selection or of the extraction. *)
Definition region_or_extraction (ev : event) : bool :=
  match ev_call ev with
  | QuerySelector _ | SelectOption _ _ | EvaluateSlotScript => true
  | _ => false
  end.

Definition is_title_call (ev : event) : bool :=
  match ev_call ev with Title => true | _ => false end.

(** A portal that answers every call: it shows [first_title] until the
    title has been read once and [later_title] from then on, stays at
    [url], lets the selectors of [click_ok] be clicked, has no button,
    has a dropdown or not, and shows the cards of [page_cards]. *)
Record portal : Type := Portal {
  first_title : string;
  later_title : string;
  url : string;
  click_ok : string → bool;
  dropdown : bool;
  page_cards : dom_snapshot
}.

Definition portal_world (p : portal) : env :=
  λ hist T c,
    match c in call T return T with
    | StartPlaywright => ok ()
    | Launch => ok ()
    | NewContext => ok ()
    | NewPage => ok ()
    | AddInitScript => ok ()
    | ClosePage => ok ()
    | CloseContext => ok ()
    | CloseBrowser => ok ()
    | StopPlaywright => ok ()
    | Goto _ _ => ok ()
    | Sleep _ => ()
    | Title => if existsb is_title_call hist then ok (later_title p) else ok (first_title p)
    | CurrentUrl => url p
    | WaitForSelector _ _ => ok ()
    | Fill _ _ => ok ()
    | Click selector _ =>
        if click_ok p selector then ok ()
        else raise (PlaywrightError "Timeout 3000ms exceeded.")
    | WaitForLoadState _ => ok ()
    | QuerySelectorAll _ => ok []
    | InnerText _ => ok ""
    | ClickHandle _ => ok ()
    | QuerySelector _ => ok (if dropdown p then Some 0 else None)
    | SelectOption _ _ => ok ()
    | EvaluateSlotScript => ok (page_cards p)
    | UtcNow => 0%N
    end.

Definition login_url : string := BASE_URL +:+ "/web/init.srcei".

(** The block page of the perimeter defence. *)
Definition blocked_world : env :=
  portal_world (Portal "Request Rejected" "Request Rejected" login_url
                       (λ _, true) false (Dom [] 2026)).

(** The login form, and an error page after the submit. *)
Definition bad_credentials_world : env :=
  portal_world (Portal "Clave Unica" "Clave Unica - Error" login_url
                       (λ _, true) false (Dom [] 2026)).

(** A portal that logs in and then shows no control of the procedure:
    only the submit button of the login form can be clicked. *)
Definition no_match_world : env :=
  portal_world (Portal "Clave Unica" "Reserva de Hora"
                       (BASE_URL +:+ "/web/seleccion.srcei")
                       (contains ".btn-primary") true (Dom [] 2026)).

Definition test_config : SRCEIConfig := Config "12345678-9" "secret".

(** The body of the [try] of [select_procedure]. *)
Definition select_procedure_body (procedure_name : string) : method bool :=
  clicked <- click_first (procedure_selectors procedure_name);;
  clicked <- (if negb clicked then
                buttons <- await (QuerySelectorAll "button.btn");;
                click_button_by_text procedure_name buttons
              else ret_m clicked);;
  if clicked then
    await (WaitForLoadState "networkidle");;;
    perform (Sleep 1);;;
    ret_m true
  else ret_m false.


(** The body of the [try] of [login]. *)
Definition login_body (config : SRCEIConfig) : method bool :=
  await (Goto (BASE_URL +:+ "/web/init.srcei") "networkidle");;;
  perform (Sleep 1);;;
  title <- await Title;;
  if contains "Request Rejected" title then ret_m false
  else
    await (WaitForSelector ("input[name=" +:+ dq +:+ "run" +:+ dq +:+ "]") 10000%N);;;
    await (Fill ("input[name=" +:+ dq +:+ "run" +:+ dq +:+ "]") (rut config));;;
    await (Fill ("input[name=" +:+ dq +:+ "pass" +:+ dq +:+ "]") (password config));;;
    await (Click ("button[type=" +:+ dq +:+ "submit" +:+ dq +:+ "], input[type="
                  +:+ dq +:+ "submit" +:+ dq +:+ "], .btn-primary") None);;;
    await (WaitForLoadState "networkidle");;;
    perform (Sleep 2);;;
    current_url <- perform CurrentUrl;;
    title <- await Title;;
    if contains "seleccion" (lower current_url) || contains "Reserva de Hora" title
    then set_authenticated true;;; ret_m true
    else ret_m false.

(** The three calls of a login that meets the block page. *)
Definition blocked_calls (title : string) : list event :=
  [Event (Goto login_url "networkidle") (ok ());
   Event (Sleep 1) ();
   Event Title (ok title)].

Definition login_failed : py_exn := HTTPError 503 "Failed to authenticate with SRCEI".

(** The events a step adds: none of them belongs to the region selection
    or the extraction ([quiet]); none of them is a click that went through
    ([no_click]). *)
Definition quiet (new : list event) : Prop :=
  Forall (λ ev, region_or_extraction ev = false) new.

Definition no_click (new : list event) : Prop :=
  Forall (λ ev, click_succeeded ev = false) new.

(** The pairs that [keyed] builds carry the key of their element. *)
Definition decorated {A} (key : A → result string) (p : string * A) : Prop :=
  key p.2 = ok p.1.

Definition key_le {A} (p q : string * A) : Prop := String.le p.1 q.1.

(** ** Vocabulary of the further properties *)

(** A card of the Centro office on the 5th of March at 9:30. *)
Definition centro_card : string :=
  "Oficina Centro" +:+ String "010" "Calle 1" +:+ String "010" "5"
  +:+ String "010" "Marzo" +:+ String "010" "9:30" +:+ String "010" "Agendar".

(** The script was evaluated. *)
Definition is_extraction (ev : event) : bool :=
  match ev_call ev with EvaluateSlotScript => true | _ => false end.

(** A dropdown query that found an element. *)
Definition dropdown_found (ev : event) : bool :=
  match ev with
  | Event c r =>
      match c in call T return T → bool with
      | QuerySelector _ => λ r, match r with inr (Some _) => true | _ => false end
      | _ => λ _, false
      end r
  end.

(** The region was chosen in a dropdown, and the choice did not raise. *)
Definition region_selected (region_id : string) (ev : event) : bool :=
  match ev with
  | Event c r =>
      match c in call T return T → bool with
      | SelectOption _ value =>
          λ r, match r with inr _ => String.eqb value region_id | inl _ => false end
      | _ => λ _, false
      end r
  end.

(** The body of the [try] of [select_region]. *)
Definition select_region_body (region_id : string) : method bool :=
  perform (Sleep 1);;;
  selected <- select_first region_id region_selectors;;
  if negb selected then ret_m false
  else
    perform (Sleep 1);;;
    await (WaitForLoadState "networkidle");;;
    ret_m true.

(** The body of the [try] of [get_slots_by_region]. *)
Definition extraction_body : method (list slot) :=
  perform (Sleep 2);;;
  slots_data <- await EvaluateSlotScript;;
  ret_m (remove_duplicates (extract_slots slots_data)).

(** The script was evaluated and gave its records back. *)
Definition extraction_answered (ev : event) : bool :=
  match ev with
  | Event c r =>
      match c in call T return T → bool with
      | EvaluateSlotScript => λ r, match r with inr _ => true | inl _ => false end
      | _ => λ _, false
      end r
  end.

(** A record and the response entry made from it. *)
Definition response_of (s : slot) (r : SlotResponse) : Prop :=
  office_name r = nombreOficina s ∧
  office_address r = direccionOficina s ∧
  date r = fechaDisponible s ∧
  time r = horaDisponible s ∧
  format_slot_datetime_iso s = ok (datetime_iso r) ∧
  office_id r = idOficina s.

(** A portal that logs in, lets every control be used and shows three
    cards, two of them for the same office, day and time. *)
Definition fixture_world : env :=
  portal_world
    (Portal "Clave Unica" "Reserva de Hora" (BASE_URL +:+ "/web/seleccion.srcei")
            (λ _, true) true
            (Dom [ "Oficina Norte" +:+ String "010" "Calle 2" +:+ String "010" "12"
                   +:+ String "010" "Marzo" +:+ String "010" "10:00"
                   +:+ String "010" "Agendar";
                   centro_card; centro_card ] 2026)).

(** Dates and times at full width: DD/MM/YYYY with a year of four digits,
    HH:MM with an hour of two digits. *)
Definition is_full_date (d : string) : bool :=
  match split_on "/" d with
  | [dd; mm; yy] =>
      (String.length dd =? 2) && all_chars is_digit dd &&
      (String.length mm =? 2) && all_chars is_digit mm &&
      (String.length yy =? 4) && all_chars is_digit yy
  | _ => false
  end.

Definition is_full_time (t : string) : bool :=
  match split_on ":" t with
  | [hh; mi] =>
      (String.length hh =? 2) && all_chars is_digit hh &&
      (String.length mi =? 2) && all_chars is_digit mi
  | _ => false
  end.

Definition full_width (s : slot) : Prop :=
  is_full_date (fechaDisponible s) = true ∧ is_full_time (horaDisponible s) = true.

Global Instance full_width_dec s : Decision (full_width s).
Proof. unfold full_width. apply _. Defined.

(** The moment of a record as the number YYYYMMDDHHMM, which grows with
    time. *)
Definition stamp_digits (s : slot) : string :=
  match split_on "/" (fechaDisponible s), split_on ":" (horaDisponible s) with
  | [dd; mm; yy], [hh; mi] => yy +:+ mm +:+ dd +:+ hh +:+ mi
  | _, _ => ""
  end.

Definition stamp (s : slot) : nat := parseInt (stamp_digits s).

(** The value of a digit text read after the value [n]. *)
Definition read_digits (n : nat) (s : string) : nat :=
  foldl (λ n c, 10 * n + digit_value c) n (String.list_ascii_of_string s).


(** The eleven calls of a login that goes through, with the titles and the
    address that the portal showed. *)
Definition login_calls (config : SRCEIConfig) (first_title url later_title : string)
    : list event :=
  [Event (Goto (BASE_URL +:+ "/web/init.srcei") "networkidle") (ok ());
   Event (Sleep 1) ();
   Event Title (ok first_title);
   Event (WaitForSelector ("input[name=" +:+ dq +:+ "run" +:+ dq +:+ "]") 10000%N) (ok ());
   Event (Fill ("input[name=" +:+ dq +:+ "run" +:+ dq +:+ "]") (rut config)) (ok ());
   Event (Fill ("input[name=" +:+ dq +:+ "pass" +:+ dq +:+ "]") (password config)) (ok ());
   Event (Click ("button[type=" +:+ dq +:+ "submit" +:+ dq +:+ "], input[type="
                 +:+ dq +:+ "submit" +:+ dq +:+ "], .btn-primary") None) (ok ());
   Event (WaitForLoadState "networkidle") (ok ());
   Event (Sleep 2) ();
   Event CurrentUrl url;
   Event Title (ok later_title)].

(** Two records of one day, at 9:30 and at 10:00. *)
Definition morning_slots : list slot :=
  [Slot "A" "" "29/01/2026" "9:30" ""; Slot "B" "" "29/01/2026" "10:00" ""].

(** A call that tries a selection strategy of the procedure. *)
Definition selection_attempt (ev : event) : bool :=
  match ev_call ev with
  | Click _ _ | ClickHandle _ | QuerySelectorAll _ | InnerText _ => true
  | _ => false
  end.

(** A call that tries a dropdown of the region. *)
Definition region_attempt (ev : event) : bool :=
  match ev_call ev with
  | QuerySelector _ | SelectOption _ _ => true
  | _ => false
  end.

(** A region choice that did not raise. *)
Definition option_selected (ev : event) : bool :=
  match ev with
  | Event c r =>
      match c in call T return T → bool with
      | SelectOption _ _ => λ r, match r with inr _ => true | inl _ => false end
      | _ => λ _, false
      end r
  end.

(** No attempt is made after the first hit. *)
Fixpoint stops_after (hit attempt : event → bool) (new : list event) : bool :=
  match new with
  | [] => true
  | ev :: rest =>
      if hit ev then forallb (λ e, negb (attempt e)) rest
      else stops_after hit attempt rest
  end.

(** The calls of [start_browser] and of [close], in the order of the code. *)
Definition start_calls : list (call (result unit)) :=
  [StartPlaywright; Launch; NewContext; NewPage; AddInitScript].

Definition close_calls : list (call (result unit)) :=
  [ClosePage; CloseContext; CloseBrowser; StopPlaywright].

(** The calls of [cs], each answered without an exception. *)
Definition answered (cs : list (call (result unit))) : list event :=
  (λ c, Event c (ok ())) <$> cs.

(** The calls of [cs] up to number [k], which raised [e]; those before it
    were answered. *)
Definition stopped (cs : list (call (result unit))) (k : nat) (e : py_exn) : list event :=
  answered (take k cs) ++
  match cs !! k with
  | Some c => [Event c (raise e)]
  | None => []
  end.

(** The portal of [fixture_world] behind a browser whose pages take no init
    script. *)
Definition no_init_script_world : env :=
  λ hist T c,
    match c in call T return T with
    | AddInitScript => raise (PlaywrightError "Target closed")
    | c => fixture_world hist _ c
    end.

(** * Properties *)

(** ** Splitting and padding *)

Lemma split_on_not_nil sep s : split_on sep s ≠ [].
Proof.
  destruct s as [|c r]; simpl; [done|].
  case_decide; [done|]. by destruct (split_on sep r).
Qed.

Lemma length_split_on sep s : length (split_on sep s) = S (count_char sep s).
Proof.
  induction s as [|c r IH]; simpl; [done|].
  case_decide; simpl; [by rewrite IH|].
  pose proof (split_on_not_nil sep r).
  destruct (split_on sep r); simpl in *; congruence.
Qed.

Lemma split_on_free sep a : count_char sep a = 0 → split_on sep a = [a].
Proof.
  induction a as [|c r IH]; simpl; [done|].
  case_decide; [done|]. intros Hr. by rewrite IH.
Qed.

Lemma split_on_app sep a b :
  count_char sep a = 0 → split_on sep (a +:+ String sep b) = a :: split_on sep b.
Proof.
  induction a as [|c r IH]; simpl.
  - intros _. by rewrite decide_True.
  - case_decide; [done|]. intros Hr. by rewrite IH.
Qed.

Lemma join_with_cons_char sep c w ws :
  join_with sep (String c w :: ws) = String c (join_with sep (w :: ws)).
Proof. by destruct ws. Qed.

Lemma join_with_cons sep w ws :
  ws ≠ [] → join_with sep (w :: ws) = w +:+ String sep (join_with sep ws).
Proof. by destruct ws. Qed.

Lemma join_split_on sep s : join_with sep (split_on sep s) = s.
Proof.
  induction s as [|c r IH]; [done|].
  pose proof (split_on_not_nil sep r) as Hne.
  cbn [split_on]. case_decide as Hc.
  - subst c. by rewrite join_with_cons, IH.
  - destruct (split_on sep r) as [|w ws] eqn:E; [done|].
    by rewrite join_with_cons_char, IH.
Qed.

Lemma split_on_parts_free sep s :
  Forall (λ w, count_char sep w = 0) (split_on sep s).
Proof.
  induction s as [|c r IH]; simpl.
  - by constructor.
  - case_decide.
    + by constructor.
    + destruct (split_on sep r) as [|w ws].
      * constructor; [|done]. simpl. by rewrite decide_False.
      * inversion IH; subst. constructor; [|done].
        simpl. by rewrite decide_False.
Qed.

Lemma split_on_three sep a b c :
  count_char sep a = 0 → count_char sep b = 0 → count_char sep c = 0 →
  split_on sep (a +:+ String sep (b +:+ String sep c)) = [a; b; c].
Proof.
  intros Ha Hb Hc. by rewrite !split_on_app, split_on_free.
Qed.

Lemma parse_slot_date_parts day month year :
  count_char "/" day = 0 → count_char "/" month = 0 → count_char "/" year = 0 →
  parse_slot_date (day +:+ "/" +:+ month +:+ "/" +:+ year)
  = ok (year +:+ "-" +:+ zfill 2 month +:+ "-" +:+ zfill 2 day).
Proof.
  intros Hd Hm Hy. unfold parse_slot_date.
  change (day +:+ "/" +:+ month +:+ "/" +:+ year)
    with (day +:+ String "/" (month +:+ String "/" year)).
  by rewrite split_on_three.
Qed.

Lemma parse_slot_date_shape s :
  match split_on "/" s with
  | [day; month; year] =>
      parse_slot_date s = ok (year +:+ "-" +:+ zfill 2 month +:+ "-" +:+ zfill 2 day)
  | parts => parse_slot_date s = raise (UnpackError (length parts)) ∧ length parts ≠ 3
  end.
Proof.
  unfold parse_slot_date.
  destruct (split_on "/" s) as [|a [|b [|c [|d l]]]]; simpl; auto with lia.
Qed.

Lemma parse_slot_date_raises s :
  raises (parse_slot_date s) ↔ length (split_on "/" s) ≠ 3.
Proof.
  pose proof (parse_slot_date_shape s) as H. unfold raises.
  destruct (split_on "/" s) as [|a [|b [|c [|d l]]]]; simpl in *.
  4: { rewrite H. split; [intros [e ?]; done|lia]. }
  all: destruct H as [H _]; rewrite H; split; [lia|eauto].
Qed.

(** C10: [parse_slot_date] raises exactly when the split on "/" does not
    have three parts, that is when the text does not hold exactly two
    separators; with exactly two it returns year, padded month and padded
    day joined by hyphens, whatever the three parts hold: "99/xx/2026"
    gives "2026-xx-99". *)
Theorem parse_slot_date_raises_iff_not_three_parts (s : string) :
  (raises (parse_slot_date s) ↔ length (split_on "/" s) ≠ 3) ∧
  (length (split_on "/" s) = 3 ↔ count_char "/" s = 2) ∧
  (count_char "/" s = 2 →
   ∃ day month year,
     s = day +:+ "/" +:+ month +:+ "/" +:+ year ∧
     parse_slot_date s = ok (year +:+ "-" +:+ zfill 2 month +:+ "-" +:+ zfill 2 day)) ∧
  parse_slot_date "99/xx/2026" = ok "2026-xx-99".
Proof.
  split; [apply parse_slot_date_raises|].
  split; [rewrite length_split_on; lia|].
  split; [|reflexivity].
  intros Hc.
  pose proof (length_split_on "/" s) as Hlen.
  pose proof (join_split_on "/" s) as Hjoin.
  pose proof (parse_slot_date_shape s) as Hshape.
  destruct (split_on "/" s) as [|a [|b [|c [|d l]]]]; simpl in Hlen; try lia.
  exists a, b, c. split; [by rewrite <- Hjoin|done].
Qed.

(** ** Dates written with digits *)

Lemma digit_char_is_digit n : n < 10 → is_digit (digit_char n) = true.
Proof. intros H. do 10 (destruct n as [|n]; [reflexivity|]). lia. Qed.

Lemma digits_free_of c s :
  is_digit c = false → all_chars is_digit s = true → count_char c s = 0.
Proof.
  intros Hc. induction s as [|a r IH]; simpl; [done|].
  intros [Ha Hr]%andb_true_iff. case_decide; [congruence|]. by rewrite IH.
Qed.

Lemma two_digits_digits n : n < 100 → all_chars is_digit (two_digits n) = true.
Proof.
  intros H. unfold two_digits.
  assert (n / 10 < 10) as Hq by (apply Nat.Div0.div_lt_upper_bound; lia).
  assert (n mod 10 < 10) as Hr by (apply Nat.mod_upper_bound; lia).
  revert Hq Hr. generalize (n / 10) (n mod 10). intros q r Hq Hr.
  cbn [all_chars]. by rewrite !digit_char_is_digit.
Qed.

Lemma digit_starts_character c : is_digit c = true → is_continuation c = false.
Proof. by destruct c as [[] [] [] [] [] [] [] []]. Qed.

(** A text of digits has one byte for each character. *)
Lemma py_len_digits s : all_chars is_digit s = true → py_len s = String.length s.
Proof.
  induction s as [|c s IH]; [done|].
  cbn [all_chars py_len String.length]. intros [Hc Hs]%andb_true_iff.
  by rewrite (digit_starts_character c), IH.
Qed.

Lemma zfill_long s : all_chars is_digit s = true → 2 ≤ String.length s → zfill 2 s = s.
Proof.
  intros Hd H. unfold zfill. rewrite py_len_digits by done. by rewrite decide_True.
Qed.

Lemma zfill_two_digits n : n < 100 → zfill 2 (two_digits n) = two_digits n.
Proof. intros H. apply zfill_long; [by apply two_digits_digits|done]. Qed.

Lemma zfill_one_digit n : n < 10 → zfill 2 (String (digit_char n) "") = two_digits n.
Proof. intros H. do 10 (destruct n as [|n]; [reflexivity|]). lia. Qed.

Lemma is_digit_char c :
  is_digit c = true → ∃ n, n < 10 ∧ c = digit_char n ∧ digit_value c = n.
Proof.
  intros H. exists (digit_value c).
  destruct c as [[] [] [] [] [] [] [] []]; try done;
    (split_and!; [cbn; lia|reflexivity|reflexivity]).
Qed.

(** Padding a day or month of one or two digits writes its number with two
    digits. *)
Lemma zfill_number d :
  one_or_two_digits d = true → zfill 2 d = two_digits (parseInt d).
Proof.
  destruct d as [|a [|b [|c r]]]; try done.
  - cbn [one_or_two_digits String.list_ascii_of_string].
    intros (n & Hn & -> & _)%is_digit_char.
    do 10 (destruct n as [|n]; [reflexivity|]). lia.
  - cbn [one_or_two_digits String.list_ascii_of_string].
    intros [(n1 & H1 & -> & _)%is_digit_char (n2 & H2 & -> & _)%is_digit_char]%andb_true_iff.
    do 10 (destruct n1 as [|n1];
           [do 10 (destruct n2 as [|n2]; [reflexivity|]); lia|]).
    lia.
Qed.

Lemma written_as_digits n s :
  n < 100 → written_as n s → all_chars is_digit s = true ∧ zfill 2 s = two_digits n.
Proof.
  intros Hn [->|[Hlt ->]].
  - split; [by apply two_digits_digits|by apply zfill_two_digits].
  - split; [|by apply zfill_one_digit].
    cbn [all_chars]. by rewrite digit_char_is_digit.
Qed.

(** C2: a date D/M/YYYY whose day 1..31 and month 1..12 are given with one
    or two digits parses to YYYY-MM-DD with month and day zero-padded to
    two digits. *)
Theorem parse_slot_date_zero_pads (d m : nat) (D M Y : string) :
  1 ≤ d ≤ 31 → 1 ≤ m ≤ 12 →
  written_as d D → written_as m M → four_digits Y = true →
  parse_slot_date (D +:+ "/" +:+ M +:+ "/" +:+ Y)
  = ok (Y +:+ "-" +:+ two_digits m +:+ "-" +:+ two_digits d).
Proof.
  intros Hd Hm HD HM [_ HY]%andb_true_iff.
  destruct (written_as_digits d D) as [HDd HDz]; [lia|done|].
  destruct (written_as_digits m M) as [HMd HMz]; [lia|done|].
  rewrite parse_slot_date_parts by (by apply digits_free_of).
  by rewrite HDz, HMz.
Qed.

Lemma parse_slot_date_zero_pads_witness :
  parse_slot_date "5/3/2026" = ok "2026-03-05".
Proof.
  apply (parse_slot_date_zero_pads 5 3 "5" "3" "2026"); try lia; try reflexivity.
  - right. split; [lia|reflexivity].
  - right. split; [lia|reflexivity].
Defined.

(** ** The stable sort *)

Section py_sorted.
Context {A : Type} (key : A → result string).

Lemma keyed_ok l :
  Forall (λ x, ∃ k, key x = ok k) l →
  ∃ kl, keyed key l = ok kl ∧ kl.*2 = l ∧ Forall (decorated key) kl.
Proof.
  induction 1 as [|x r [k Hk] _ (kr & Hkr & Hsnd & Hdec)]; simpl.
  - by exists [].
  - exists ((k, x) :: kr). rewrite Hk, Hkr. simpl.
    split_and!; [done|by f_equal|by constructor].
Qed.

Lemma keyed_raises l :
  Exists (λ x, raises (key x)) l →
  ∃ e x, x ∈ l ∧ key x = raise e ∧ keyed key l = raise e.
Proof.
  induction 1 as [x r [e He]|x r _ (e & y & Hy & He & Hk)]; simpl.
  - exists e, x. rewrite He. split_and!; [left|done|done].
  - destruct (key x) as [e'|k] eqn:Hx; simpl.
    + exists e', x. split_and!; [left|done|done].
    + exists e, y. rewrite Hk. split_and!; [by right|done|done].
Qed.

Lemma insert_by_key_perm (x : string * A) l : insert_by_key x l ≡ₚ x :: l.
Proof.
  induction l as [|y r IH]; simpl; [done|].
  destruct (String.leb x.1 y.1); [done|].
  rewrite IH. apply Permutation_swap.
Qed.

Lemma sort_keyed_perm (l : list (string * A)) : sort_keyed l ≡ₚ l.
Proof.
  induction l as [|x r IH]; simpl; [done|].
  by rewrite insert_by_key_perm, IH.
Qed.

Lemma insert_by_key_sorted (x : string * A) l :
  StronglySorted key_le l → StronglySorted key_le (insert_by_key x l).
Proof.
  induction 1 as [|y r Hr IH Hy]; simpl.
  - by repeat constructor.
  - destruct (String.leb x.1 y.1) eqn:Hxy.
    + apply Is_true_true in Hxy.
      constructor; [by constructor|].
      constructor; [done|].
      eapply Forall_impl; [exact Hy|]. intros z Hz.
      unfold key_le in *. by etrans.
    + constructor; [done|].
      rewrite insert_by_key_perm. constructor; [|done].
      unfold key_le. destruct (total String.le x.1 y.1) as [Hle|Hle]; [|done].
      apply Is_true_true in Hle. unfold String.le in Hle. congruence.
Qed.

Lemma sort_keyed_sorted (l : list (string * A)) : StronglySorted key_le (sort_keyed l).
Proof.
  induction l as [|x r IH]; simpl; [constructor|].
  by apply insert_by_key_sorted.
Qed.

(** Stability: the elements of any one key keep their order. *)
Lemma insert_by_key_stable k (x : string * A) l :
  filter (λ p, p.1 = k) (insert_by_key x l) = filter (λ p, p.1 = k) (x :: l).
Proof.
  induction l as [|y r IH]; simpl; [done|].
  destruct (String.leb x.1 y.1) eqn:Hxy; [done|].
  rewrite (filter_cons _ y), IH, !filter_cons.
  repeat case_decide; try done.
  assert (x.1 = y.1) as Heq by congruence.
  rewrite Heq in Hxy.
  assert (String.le y.1 y.1) as Hle by reflexivity.
  apply Is_true_true in Hle. unfold String.le in Hle. congruence.
Qed.

Lemma sort_keyed_stable k (l : list (string * A)) :
  filter (λ p, p.1 = k) (sort_keyed l) = filter (λ p, p.1 = k) l.
Proof.
  induction l as [|x r IH]; simpl; [done|].
  by rewrite insert_by_key_stable, !filter_cons, IH.
Qed.

Lemma decorated_filter k (l : list (string * A)) :
  Forall (decorated key) l →
  (filter (λ p, p.1 = k) l).*2 = filter (λ x, key x = ok k) (l.*2).
Proof.
  induction 1 as [|p r Hp _ IH]; [done|].
  rewrite fmap_cons, !filter_cons. unfold decorated in Hp.
  destruct (decide (p.1 = k)) as [<-|Hk].
  - rewrite decide_True by done. by rewrite fmap_cons, IH.
  - rewrite decide_False; [done|]. rewrite Hp. unfold ok. intros [= ?]. done.
Qed.

Lemma decorated_sorted (l : list (string * A)) :
  Forall (decorated key) l → StronglySorted key_le l →
  StronglySorted (λ a b, ∃ ka kb, key a = ok ka ∧ key b = ok kb ∧ String.le ka kb) (l.*2).
Proof.
  intros Hdec. induction 1 as [|p r Hr IH Hp]; [constructor|].
  inversion Hdec as [|?? Hpd Hrd]; subst.
  rewrite fmap_cons. constructor; [by apply IH|].
  apply Forall_fmap, Forall_forall. intros q Hq.
  rewrite Forall_forall in Hp, Hrd.
  exists p.1, q.1. split_and!; [done|by apply Hrd|by apply Hp].
Qed.

(** [sorted(l, key=key)] when every key can be computed. *)
Lemma py_sorted_ok l :
  Forall (λ x, ∃ k, key x = ok k) l →
  ∃ out, py_sorted key l = ok out ∧ out ≡ₚ l ∧
    StronglySorted (λ a b, ∃ ka kb, key a = ok ka ∧ key b = ok kb ∧ String.le ka kb) out ∧
    ∀ k, filter (λ x, key x = ok k) out = filter (λ x, key x = ok k) l.
Proof.
  intros (kl & Hkl & Hsnd & Hdec)%keyed_ok.
  assert (Forall (decorated key) (sort_keyed kl)) as Hdec'.
  { by rewrite sort_keyed_perm. }
  exists ((sort_keyed kl).*2). unfold py_sorted. rewrite Hkl. simpl.
  split_and!; [done| | |].
  - by rewrite sort_keyed_perm, Hsnd.
  - apply decorated_sorted; [done|apply sort_keyed_sorted].
  - intros k. rewrite <- Hsnd.
    by rewrite <- !decorated_filter, sort_keyed_stable.
Qed.

Lemma py_sorted_raises l :
  Exists (λ x, raises (key x)) l →
  ∃ e x, x ∈ l ∧ key x = raise e ∧ py_sorted key l = raise e.
Proof.
  intros (e & x & Hx & He & Hk)%keyed_raises. exists e, x.
  unfold py_sorted. by rewrite Hk.
Qed.
End py_sorted.

Lemma format_slot_datetime_ok s :
  well_delimited s → ∃ k, format_slot_datetime s = ok k.
Proof.
  unfold well_delimited, format_slot_datetime. intros Hc.
  destruct (parse_slot_date (fechaDisponible s)) as [e|iso] eqn:E; simpl; [|eauto].
  assert (raises (parse_slot_date (fechaDisponible s))) as Hr by (by exists e).
  apply parse_slot_date_raises in Hr. rewrite length_split_on in Hr. lia.
Qed.

Lemma format_slot_datetime_raises s :
  ¬ well_delimited s → raises (format_slot_datetime s).
Proof.
  unfold well_delimited, format_slot_datetime. intros Hc.
  assert (raises (parse_slot_date (fechaDisponible s))) as [e He].
  { apply parse_slot_date_raises. rewrite length_split_on. lia. }
  exists e. by rewrite He.
Qed.

Lemma StronglySorted_transfer {A} (R R' : relation A) (P : A → Prop) l :
  (∀ a b, P a → P b → R a b → R' a b) →
  Forall P l → StronglySorted R l → StronglySorted R' l.
Proof.
  intros HR HP. induction 1 as [|x l Hl IH Hx]; [constructor|].
  inversion HP as [|?? Px Pl]; subst. constructor; [by apply IH|].
  rewrite Forall_forall in Hx, Pl. apply Forall_forall. intros y Hy.
  apply HR; [done|by apply Pl|by apply Hx].
Qed.

Lemma filter_agree {A} (P Q R : A → Prop)
    `{∀ x, Decision (P x)} `{∀ x, Decision (Q x)} l :
  (∀ x, R x → P x ↔ Q x) → Forall R l → filter P l = filter Q l.
Proof.
  intros HPQ. induction 1 as [|x l Hx _ IH]; [done|].
  rewrite !filter_cons, IH.
  destruct (decide (P x)) as [HP|HP], (decide (Q x)) as [HQ|HQ]; try done.
  - by apply (HPQ x Hx) in HP.
  - by apply (HPQ x Hx) in HQ.
Qed.

(** On a well-formed date the key that the code sorts by is the composed
    text "<ISO date> <time>". *)
Lemma format_slot_datetime_composed s :
  well_formed s → format_slot_datetime s = ok (composed_key s).
Proof.
  unfold well_formed, is_slot_date, format_slot_datetime, composed_key, iso_date.
  pose proof (parse_slot_date_shape (fechaDisponible s)) as Hshape.
  destruct (split_on "/" (fechaDisponible s)) as [|D [|M [|Y [|x l]]]]; try done.
  intros [[HD HM]%andb_true_iff _]%andb_true_iff.
  rewrite Hshape. cbn [rbind ok]. by rewrite (zfill_number D), (zfill_number M).
Qed.

Lemma sort_slots_by_datetime_composed slots :
  Forall well_formed slots →
  ∃ out, sort_slots_by_datetime slots = ok out ∧
    out ≡ₚ slots ∧
    StronglySorted key_ascending out ∧
    ∀ k, filter (λ s, composed_key s = k) out = filter (λ s, composed_key s = k) slots.
Proof.
  intros Hwf.
  destruct (py_sorted_ok format_slot_datetime slots) as (out & Hsort & Hperm & Hsorted & Hstable).
  { eapply Forall_impl; [exact Hwf|]. intros s Hs.
    exists (composed_key s). by apply format_slot_datetime_composed. }
  assert (Forall well_formed out) as Hout by (by rewrite Hperm).
  exists out. split_and!; [done|done| |].
  - eapply (StronglySorted_transfer _ _ well_formed); [|exact Hout|exact Hsorted].
    intros a b Ha Hb (ka & kb & Hka & Hkb & Hle). unfold key_ascending.
    rewrite (format_slot_datetime_composed a Ha) in Hka.
    rewrite (format_slot_datetime_composed b Hb) in Hkb.
    by injection Hka as <-; injection Hkb as <-.
  - intros k.
    rewrite <- (filter_agree (λ s, format_slot_datetime s = ok k) _ well_formed out),
            <- (filter_agree (λ s, format_slot_datetime s = ok k) _ well_formed slots);
      [apply Hstable| |done| |done].
    all: intros s Hs; rewrite (format_slot_datetime_composed s Hs); unfold ok;
         split; [by intros [= ->]|by intros ->].
Qed.

(** C5: on records whose dates are well formed (day and month of one or two
    digits, a year in digits) the key that [sort_slots_by_datetime] sorts by
    is the composed text "<ISO date> <time>", the ISO date being the year,
    the month number and the day number with two digits each; the sort
    succeeds, its output is a permutation of the input, ascending in that
    text, and the records of any one text keep their input order.  The
    three records of the test come out as C, A, B; four records whose
    day-first texts are in another order than their dates come out by
    date. *)
Theorem sort_slots_by_datetime_stable_ascending :
  (∀ slots : list slot,
     Forall well_formed slots →
     ∃ out, sort_slots_by_datetime slots = ok out ∧
       out ≡ₚ slots ∧
       StronglySorted key_ascending out ∧
       ∀ k, filter (λ s, composed_key s = k) out
            = filter (λ s, composed_key s = k) slots) ∧
  (∀ s : slot, well_formed s → format_slot_datetime s = ok (composed_key s)) ∧
  sort_slots_by_datetime test_slots
  = ok [Slot "C" "" "29/01/2026" "09:30" "";
        Slot "A" "" "29/01/2026" "15:00" "";
        Slot "B" "" "30/01/2026" "10:00" ""] ∧
  composed_key <$> calendar_slots
  = ["2026-10-05 09:00"; "2026-09-20 09:00"; "2026-02-01 09:00"; "2026-01-31 09:00"] ∧
  sort_slots_by_datetime calendar_slots
  = ok [Slot "D" "" "31/1/2026" "09:00" "";
        Slot "C" "" "1/2/2026" "09:00" "";
        Slot "B" "" "20/9/2026" "09:00" "";
        Slot "A" "" "5/10/2026" "09:00" ""].
Proof.
  split_and!; [apply sort_slots_by_datetime_composed
              |apply format_slot_datetime_composed
              |reflexivity|reflexivity|reflexivity].
Qed.

Lemma sort_slots_by_datetime_stable_ascending_witness :
  ∃ out, sort_slots_by_datetime calendar_slots = ok out ∧
    out ≡ₚ calendar_slots ∧
    StronglySorted key_ascending out ∧
    ∀ k, filter (λ s, composed_key s = k) out
         = filter (λ s, composed_key s = k) calendar_slots.
Proof.
  apply (proj1 sort_slots_by_datetime_stable_ascending calendar_slots).
  repeat (constructor; [reflexivity|]). constructor.
Defined.

(** ** A malformed date in a batch *)

Lemma format_slot_datetime_error s e :
  format_slot_datetime s = raise e → ∃ n, n ≠ 3 ∧ e = UnpackError n.
Proof.
  unfold format_slot_datetime.
  pose proof (parse_slot_date_shape (fechaDisponible s)) as H.
  destruct (split_on "/" (fechaDisponible s)) as [|a [|b [|c [|d l]]]]; simpl in *.
  4: { rewrite H. done. }
  all: destruct H as [-> Hn]; simpl; intros [= <-]; eauto.
Qed.

Lemma run_lift {A} world hist (r : result A) sess :
  run world hist (lift r sess) = ((r, sess), hist).
Proof. reflexivity. Qed.

(** C1 (as the code has it): a record whose date does not hold exactly two
    separators makes the sort raise the unpacking error for the whole
    batch; the handler builds no response from the batch, makes no further
    call and answers with status 500. *)
Theorem malformed_date_aborts_batch (batch : list slot) :
  Exists (λ s, ¬ well_delimited s) batch →
  ∃ n, n ≠ 3 ∧
    sort_slots_by_datetime batch = raise (UnpackError n) ∧
    (∀ world hist sess pid rid,
       run world hist (slot_list_response pid rid batch sess)
       = ((raise (UnpackError n), sess), hist)) ∧
    outcome (raise (UnpackError n))
    = Raised 500 "Internal server error: " (Some (UnpackError n)).
Proof.
  intros Hbad.
  destruct (py_sorted_raises format_slot_datetime batch) as (e & x & Hx & He & Hs).
  { eapply Exists_impl; [exact Hbad|]. apply format_slot_datetime_raises. }
  destruct (format_slot_datetime_error _ _ He) as (n & Hn & ->).
  exists n. split_and!; [done|done| |done].
  intros world hist sess pid rid.
  destruct batch as [|s0 batch]; [by apply elem_of_nil in Hx|].
  unfold slot_list_response, bind_m. unfold sort_slots_by_datetime in *.
  rewrite Hs. reflexivity.
Qed.

Lemma malformed_date_not_skipped :
  sort_slots_by_datetime malformed_batch = raise (UnpackError 1) ∧
  sort_skipping_malformed malformed_batch = ok [Slot "B" "" "30/01/2026" "10:00" ""] ∧
  sort_slots_by_datetime malformed_batch ≠ sort_skipping_malformed malformed_batch.
Proof. split_and!; [reflexivity|reflexivity|discriminate]. Qed.

Lemma malformed_date_aborts_batch_witness :
  ∃ n, n ≠ 3 ∧
    sort_slots_by_datetime malformed_batch = raise (UnpackError n) ∧
    (∀ world hist sess pid rid,
       run world hist (slot_list_response pid rid malformed_batch sess)
       = ((raise (UnpackError n), sess), hist)) ∧
    outcome (raise (UnpackError n))
    = Raised 500 "Internal server error: " (Some (UnpackError n)).
Proof.
  apply (malformed_date_aborts_batch malformed_batch).
  apply Exists_cons_hd. unfold well_delimited. simpl. discriminate.
Defined.

(** ** The scan of a card *)

Lemma scan_lines_snoc lines line :
  scan_lines (lines ++ [line]) = scan_line (scan_lines lines) line.
Proof. unfold scan_lines. by rewrite foldl_app. Qed.

Lemma last_match_snoc p lines line :
  last_match p (lines ++ [line])
  = if p line then line else last_match p lines.
Proof.
  unfold last_match. rewrite filter_app, filter_cons, filter_nil.
  destruct (p line) eqn:Hp.
  - rewrite decide_True by done. by rewrite last_snoc.
  - rewrite decide_False by congruence. by rewrite app_nil_r.
Qed.

Lemma scan_lines_last lines :
  scan_lines lines
  = Tokens (last_match is_day_line lines)
           (last_match is_month_line lines)
           (last_match is_time_line lines).
Proof.
  induction lines as [|line lines IH] using rev_ind; [done|].
  rewrite scan_lines_snoc, !last_match_snoc, IH. unfold scan_line.
  by destruct (is_day_line line), (is_month_line line), (is_time_line line).
Qed.

(** C3 (as the code has it): of the lines of each kind (day number, month
    name, time pattern) the scan keeps the last one, since every matching
    line overwrites the variable; it keeps the empty text when no line of
    the kind is there. *)
Theorem scan_takes_last_match (lines : list string) :
  tok_day (scan_lines lines) = last_match is_day_line lines ∧
  tok_month (scan_lines lines) = last_match is_month_line lines ∧
  tok_time (scan_lines lines) = last_match is_time_line lines.
Proof. by rewrite scan_lines_last. Qed.

Lemma scan_not_first_match :
  scan_lines two_date_card = Tokens "7" "Marzo" "10:30" ∧
  scan_first_wins two_date_card = Tokens "5" "Enero" "09:00" ∧
  scan_lines two_date_card ≠ scan_first_wins two_date_card.
Proof. split_and!; [reflexivity|reflexivity|discriminate]. Qed.

(** ** What a card emits *)

Lemma last_match_found p lines :
  p "" = false → (last_match p lines ≠ "" ↔ token_found p lines).
Proof.
  intros Hp. unfold token_found.
  induction lines as [|line lines IH] using rev_ind.
  - split; [done|]. by intros ?%Exists_nil.
  - rewrite last_match_snoc, Exists_app, Exists_cons, Exists_nil.
    destruct (p line) eqn:Hl.
    + split; [auto|]. intros _ ->. congruence.
    + rewrite IH. naive_solver.
Qed.

Lemma truthy_true s : truthy s = true ↔ s ≠ "".
Proof.
  unfold truthy. destruct (String.eqb_spec s ""); simpl; naive_solver.
Qed.

Lemma office_found_truthy lines :
  truthy (default "" (lines !! 0)) = true ↔ office_found lines.
Proof.
  rewrite truthy_true. unfold office_found.
  destruct lines as [|l rest]; simpl; [naive_solver|].
  split; [eauto|]. by intros (? & ? & [= <- <-] & ?).
Qed.

(** C7: a card emits a record exactly when its first line (the office
    name), a day line and a month line were all found; the time plays no
    part in that.  The emitted record has the office name, a date built
    from the day and the month, and as time the time line found, or "00:00"
    when there is none. *)
Theorem card_record_needs_office_day_month (year : N) (lines : list string) :
  (is_Some (card_record year lines) ↔
     office_found lines ∧ token_found is_day_line lines ∧ token_found is_month_line lines) ∧
  (∀ r, card_record year lines = Some r →
     nombreOficina r ≠ "" ∧
     nombreOficina r = default "" (lines !! 0) ∧
     (∃ monthNum,
        fechaDisponible r
        = padStart 2 "0" (last_match is_day_line lines) +:+ "/" +:+ monthNum
          +:+ "/" +:+ decimal year) ∧
     horaDisponible r
     = if decide (token_found is_time_line lines)
       then last_match is_time_line lines else "00:00").
Proof.
  unfold card_record. rewrite scan_lines_last. simpl.
  pose proof (office_found_truthy lines) as Ho.
  pose proof (last_match_found is_day_line lines eq_refl) as Hd.
  pose proof (last_match_found is_month_line lines eq_refl) as Hm.
  pose proof (last_match_found is_time_line lines eq_refl) as Ht.
  rewrite <- truthy_true in Hd, Hm, Ht.
  destruct (truthy (default "" (lines !! 0))) eqn:Eo;
    destruct (truthy (last_match is_day_line lines)) eqn:Ed;
    destruct (truthy (last_match is_month_line lines)) eqn:Em; simpl.
  2-8: split; [|done]; split; [by intros [? ?]|];
       intros (H1 & H2 & H3); apply Ho in H1; apply Hd in H2; apply Hm in H3; congruence.
  split.
  - split; [|eauto]. intros _. split_and!; [by apply Ho|by apply Hd|by apply Hm].
  - intros r [= <-]. simpl. split_and!; [by apply truthy_true|done|eauto|].
    destruct (truthy (last_match is_time_line lines)) eqn:Et.
    + rewrite decide_True; [done|]. by apply Ht.
    + rewrite decide_False; [done|]. intros H%Ht. congruence.
Qed.

(** ** Duplicate removal *)

Lemma count_char_app c a b : count_char c (a +:+ b) = count_char c a + count_char c b.
Proof. induction a as [|x a IH]; simpl; [done|]. rewrite IH. lia. Qed.

Lemma string_app_assoc (a b c : string) : (a +:+ b) +:+ c = a +:+ (b +:+ c).
Proof.
  induction a as [|x a IH]; [done|].
  change (String x ((a +:+ b) +:+ c) = String x (a +:+ (b +:+ c))).
  by rewrite IH.
Qed.

(** A text ending in a separator and a separator-free tail splits in one
    way only. *)
Lemma app_sep_inj sep a1 a2 t1 t2 :
  count_char sep t1 = 0 → count_char sep t2 = 0 →
  a1 +:+ String sep t1 = a2 +:+ String sep t2 → a1 = a2 ∧ t1 = t2.
Proof.
  intros H1 H2. revert a2.
  induction a1 as [|c a1 IH]; intros [|c2 a2]; simpl; intros Heq.
  - by simplify_eq.
  - simplify_eq. rewrite count_char_app in H1. simpl in H1.
    rewrite decide_True in H1 by done. lia.
  - simplify_eq. rewrite count_char_app in H2. simpl in H2.
    rewrite decide_True in H2 by done. lia.
  - simplify_eq. destruct (IH a2) as [-> ->]; done.
Qed.

Lemma digit_not_underscore c : is_digit c = true → c ≠ "_"%char.
Proof. by intros H ->. Qed.

Lemma is_time_line_digits t :
  is_time_line t = true → count_char "_" t = 0.
Proof.
  unfold is_time_line.
  destruct t as [|a [|b [|c [|d [|e [|f t]]]]]]; simpl; try done.
  - rewrite !andb_true_iff, bool_decide_eq_true. intros [[[Ha ->] Hc] Hd].
    rewrite !decide_False by (done || by apply digit_not_underscore). done.
  - rewrite !andb_true_iff, bool_decide_eq_true. intros [[[[Ha Hb] ->] Hd] He].
    rewrite !decide_False by (done || by apply digit_not_underscore). done.
Qed.

(** The shape of a raw date. *)
Lemma is_raw_date_shape d :
  is_raw_date d = true →
  ∃ dd mm yy,
    d = dd +:+ "/" +:+ mm +:+ "/" +:+ yy ∧
    String.length dd = 2 ∧ String.length mm = 2 ∧
    all_chars is_digit dd = true ∧ all_chars is_digit mm = true ∧
    all_chars is_digit yy = true.
Proof.
  unfold is_raw_date. pose proof (join_split_on "/" d) as Hj.
  destruct (split_on "/" d) as [|dd [|mm [|yy [|x l]]]]; try done.
  intros H. repeat (apply andb_true_iff in H as [H ?]).
  exists dd, mm, yy. rewrite <- Hj.
  split_and!; try done; by apply Nat.eqb_eq.
Qed.

Lemma parse_raw_date dd mm yy :
  String.length dd = 2 → String.length mm = 2 →
  all_chars is_digit dd = true → all_chars is_digit mm = true →
  all_chars is_digit yy = true →
  parse_slot_date (dd +:+ "/" +:+ mm +:+ "/" +:+ yy)
  = ok (yy +:+ "-" +:+ mm +:+ "-" +:+ dd).
Proof.
  intros Hd Hm Hdd Hmm Hyy.
  rewrite parse_slot_date_parts by (by apply digits_free_of).
  by rewrite !zfill_long by (done || lia).
Qed.

Lemma raw_date_free d : is_raw_date d = true → count_char "_" d = 0.
Proof.
  intros (dd & mm & yy & -> & _ & _ & Hdd & Hmm & Hyy)%is_raw_date_shape.
  rewrite !count_char_app. simpl.
  by rewrite !(digits_free_of "_") by done.
Qed.

(** On raw dates the ISO date determines the date text. *)
Lemma parse_raw_date_inj d1 d2 :
  is_raw_date d1 = true → is_raw_date d2 = true →
  parse_slot_date d1 = parse_slot_date d2 → d1 = d2.
Proof.
  intros (dd1 & mm1 & yy1 & -> & ? & ? & ? & ? & ?)%is_raw_date_shape.
  intros (dd2 & mm2 & yy2 & -> & ? & ? & ? & ? & ?)%is_raw_date_shape.
  rewrite !parse_raw_date by done. intros [= Heq].
  change (yy1 +:+ "-" +:+ mm1 +:+ "-" +:+ dd1)
    with (yy1 +:+ String "-" mm1 +:+ String "-" dd1) in Heq.
  change (yy2 +:+ "-" +:+ mm2 +:+ "-" +:+ dd2)
    with (yy2 +:+ String "-" mm2 +:+ String "-" dd2) in Heq.
  rewrite <- !string_app_assoc in Heq.
  apply app_sep_inj in Heq as [Heq ->]; [|by apply digits_free_of..].
  apply app_sep_inj in Heq as [-> ->]; [|by apply digits_free_of..].
  done.
Qed.

(** On raw records the key text of the code and the composite of office
    name, ISO date and time tell the same records apart. *)
Lemma dedup_key_identity a b :
  raw_slot_ok a → raw_slot_ok b →
  dedup_key a = dedup_key b ↔ slot_identity a = slot_identity b.
Proof.
  intros [Hda Hta] [Hdb Htb]. unfold dedup_key, slot_identity. split.
  - intros Heq.
    change (?o +:+ "_" +:+ ?d +:+ "_" +:+ ?t)
      with (o +:+ String "_" d +:+ String "_" t) in Heq.
    rewrite <- !string_app_assoc in Heq.
    apply app_sep_inj in Heq as [Heq ->]; [|by apply is_time_line_digits..].
    apply app_sep_inj in Heq as [-> ->]; [|by apply raw_date_free..].
    done.
  - intros [= -> Hd ->]. by rewrite (parse_raw_date_inj _ _ Hda Hdb Hd).
Qed.

Section first_seen.
Context {K : Type} `{EqDecision K} (key : slot → K).

Lemma first_seen_sublist earlier l : sublist (first_seen key earlier l) l.
Proof.
  revert earlier. induction l as [|x r IH]; intros earlier; simpl; [done|].
  case_decide; [by apply sublist_cons|by apply sublist_skip].
Qed.

Lemma first_seen_fresh earlier l x :
  x ∈ first_seen key earlier l → key x ∉ key <$> earlier.
Proof.
  revert earlier. induction l as [|y r IH]; intros earlier; simpl.
  - by intros ?%elem_of_nil.
  - assert (x ∈ first_seen key (earlier ++ [y]) r → key x ∉ key <$> earlier) as Hr.
    { intros Hin%IH. rewrite fmap_app in Hin. set_solver. }
    case_decide; [done|]. intros [->|Hin]%elem_of_cons; auto.
Qed.

Lemma first_seen_NoDup earlier l : NoDup (key <$> first_seen key earlier l).
Proof.
  revert earlier. induction l as [|y r IH]; intros earlier; simpl.
  - constructor.
  - case_decide; [done|]. rewrite fmap_cons. constructor; [|done].
    intros (z & Hz & Hin)%list_elem_of_fmap.
    apply first_seen_fresh in Hin. rewrite fmap_app in Hin. set_solver.
Qed.

Lemma first_seen_covers earlier l x :
  x ∈ l → key x ∈ key <$> earlier ∨ key x ∈ key <$> first_seen key earlier l.
Proof.
  revert earlier. induction l as [|y r IH]; intros earlier; simpl.
  - by intros ?%elem_of_nil.
  - intros [->|Hin]%elem_of_cons.
    + case_decide; [by left|right]. rewrite fmap_cons. by left.
    + destruct (IH (earlier ++ [y]) Hin) as [Hx|Hx].
      * rewrite fmap_app in Hx. apply elem_of_app in Hx as [Hx|Hx]; [by left|].
        apply list_elem_of_singleton in Hx.
        case_decide; [left; congruence|right].
        rewrite fmap_cons, Hx. by left.
      * right. case_decide; [done|]. rewrite fmap_cons. by right.
Qed.
End first_seen.

(** Two keys that tell the same records apart keep the same records. *)
Lemma first_seen_ext {K1 K2} `{EqDecision K1, EqDecision K2}
    (key1 : slot → K1) (key2 : slot → K2) earlier l :
  (∀ a b, a ∈ earlier ++ l → b ∈ earlier ++ l → key1 a = key1 b ↔ key2 a = key2 b) →
  first_seen key1 earlier l = first_seen key2 earlier l.
Proof.
  revert earlier. induction l as [|x r IH]; intros earlier Hk; simpl; [done|].
  assert (key1 x ∈ key1 <$> earlier ↔ key2 x ∈ key2 <$> earlier) as Hiff.
  { rewrite !list_elem_of_fmap. split; intros (y & Hy & Hin); exists y.
    - split; [|done]. apply Hk; [set_solver..|done].
    - split; [|done]. apply Hk; [set_solver..|done]. }
  rewrite IH.
  - repeat case_decide; tauto || done.
  - intros a b Ha Hb. rewrite <- app_assoc in Ha, Hb. by apply Hk.
Qed.

(** The loop of the code, from any point on: [seen] holds the keys of the
    records met so far. *)
Lemma foldl_dedup_step earlier acc l :
  foldl dedup_step (list_to_set (dedup_key <$> earlier), acc) l
  = (list_to_set (dedup_key <$> earlier ++ l), acc ++ first_seen dedup_key earlier l).
Proof.
  revert earlier acc. induction l as [|x r IH]; intros earlier acc; simpl.
  - by rewrite !app_nil_r.
  - assert (∀ acc', foldl dedup_step
        (list_to_set (dedup_key <$> earlier ++ [x]), acc') r
      = (list_to_set (dedup_key <$> earlier ++ x :: r),
         acc' ++ first_seen dedup_key (earlier ++ [x]) r)) as Hnext.
    { intros acc'. rewrite IH. by rewrite <- app_assoc. }
    unfold dedup_step at 2. simpl.
    destruct (decide (dedup_key x ∈ (list_to_set (dedup_key <$> earlier) : gset string)))
      as [Hin|Hin].
    + rewrite decide_True by (by apply elem_of_list_to_set in Hin).
      rewrite <- Hnext. f_equal. f_equal.
      rewrite fmap_app, list_to_set_app_L. simpl. set_solver.
    + rewrite decide_False by (by rewrite elem_of_list_to_set in Hin).
      change (x :: first_seen dedup_key (earlier ++ [x]) r)
        with ([x] ++ first_seen dedup_key (earlier ++ [x]) r).
      rewrite (app_assoc acc [x]), <- Hnext.
      f_equal. f_equal.
      rewrite fmap_app, list_to_set_app_L. simpl. set_solver.
Qed.

Lemma remove_duplicates_first_seen_key l :
  remove_duplicates l = first_seen dedup_key [] l.
Proof.
  unfold remove_duplicates.
  change (∅ : gset string) with (list_to_set (dedup_key <$> []) : gset string).
  by rewrite foldl_dedup_step.
Qed.

(** C6: on raw slot records the duplicate filter keeps exactly the first
    record seen of every composite of office name, ISO date and time, in
    the order of the input: the output is a sublist of the input, no two
    of its records share the composite, and every input record has its
    composite in the output.  Two records with the same office name, date
    and time collapse to the first, whatever their office identifiers. *)
Theorem remove_duplicates_keeps_first_seen (slots_data : list slot) :
  Forall raw_slot_ok slots_data →
  remove_duplicates slots_data = first_seen slot_identity [] slots_data ∧
  sublist (remove_duplicates slots_data) slots_data ∧
  NoDup (slot_identity <$> remove_duplicates slots_data) ∧
  (∀ s, s ∈ slots_data →
        slot_identity s ∈ slot_identity <$> remove_duplicates slots_data) ∧
  (∀ a b, nombreOficina a = nombreOficina b →
          fechaDisponible a = fechaDisponible b →
          horaDisponible a = horaDisponible b →
          remove_duplicates [a; b] = [a]).
Proof.
  intros Hraw.
  assert (remove_duplicates slots_data = first_seen slot_identity [] slots_data) as Heq.
  { rewrite remove_duplicates_first_seen_key. apply first_seen_ext.
    intros a b Ha Hb. rewrite Forall_forall in Hraw.
    apply dedup_key_identity; by apply Hraw. }
  split_and!; [done|..].
  - rewrite Heq. apply first_seen_sublist.
  - rewrite Heq. apply first_seen_NoDup.
  - intros s Hs. rewrite Heq.
    destruct (first_seen_covers slot_identity [] slots_data s Hs) as [Hin|Hin]; [|done].
    by apply elem_of_nil in Hin.
  - intros a b Ho Hf Hh. rewrite remove_duplicates_first_seen_key.
    assert (dedup_key b = dedup_key a) as Hk.
    { unfold dedup_key. by rewrite Ho, Hf, Hh. }
    cbn [first_seen].
    destruct (decide (dedup_key a ∈ dedup_key <$> [])) as [Hin|_];
      [by apply elem_of_nil in Hin|].
    destruct (decide (dedup_key b ∈ dedup_key <$> [] ++ [a])) as [_|Hn]; [done|].
    exfalso. apply Hn. rewrite Hk. set_solver.
Qed.

Lemma remove_duplicates_keeps_first_seen_witness :
  remove_duplicates repeated_slots
  = [Slot "Oficina Centro" "Calle 1" "29/01/2026" "09:30" "";
     Slot "Oficina Norte" "Calle 2" "29/01/2026" "09:30" ""].
Proof.
  assert (Forall raw_slot_ok repeated_slots) as Hraw.
  { repeat (constructor; [split; reflexivity|]). constructor. }
  destruct (remove_duplicates_keeps_first_seen repeated_slots Hraw) as [-> _].
  reflexivity.
Defined.

(** ** Running the methods of the client *)

Lemma run_pbind {A B} world hist (p : prog A) (f : A → prog B) :
  run world hist (pbind p f)
  = run world (run world hist p).2 (f (run world hist p).1).
Proof.
  revert hist. induction p as [a|T c k IH]; intros hist; simpl; [done|].
  apply IH.
Qed.

Lemma run_bind_m {A B} world hist (m : method A) (f : A → method B) s :
  run world hist (bind_m m f s)
  = match (run world hist (m s)).1.1 with
    | inl e => ((inl e, (run world hist (m s)).1.2), (run world hist (m s)).2)
    | inr a => run world (run world hist (m s)).2 (f a (run world hist (m s)).1.2)
    end.
Proof.
  unfold bind_m. rewrite run_pbind.
  by destruct (run world hist (m s)) as [[[e|a] s'] h'].
Qed.

Lemma run_try_except {A} world hist (m : method A) (h : py_exn → method A) s :
  run world hist (try_except m h s)
  = match (run world hist (m s)).1.1 with
    | inl e => run world (run world hist (m s)).2 (h e (run world hist (m s)).1.2)
    | inr a => ((inr a, (run world hist (m s)).1.2), (run world hist (m s)).2)
    end.
Proof.
  unfold try_except. rewrite run_pbind.
  by destruct (run world hist (m s)) as [[[e|a] s'] h'].
Qed.

Lemma run_await {T} world hist (c : call (result T)) s :
  run world hist (await c s)
  = ((world hist _ c, s), hist ++ [Event c (world hist _ c)]).
Proof. reflexivity. Qed.

Lemma run_perform {T} world hist (c : call T) s :
  run world hist (perform c s)
  = ((inr (world hist _ c), s), hist ++ [Event c (world hist _ c)]).
Proof. reflexivity. Qed.

Lemma run_ret_m {A} world hist (a : A) s :
  run world hist (ret_m a s) = ((inr a, s), hist).
Proof. reflexivity. Qed.

Lemma click_first_spec selectors world hist s :
  ∃ b new,
    run world hist (click_first selectors s) = ((ok b, s), hist ++ new) ∧
    quiet new ∧ (no_click new → b = false).
Proof.
  revert hist. induction selectors as [|selector rest IH]; intros hist.
  - exists false, []. rewrite app_nil_r. by repeat split; try constructor.
  - cbn [click_first]. rewrite run_try_except, run_bind_m, run_await. cbn [fst snd].
    destruct (world hist _ (Click selector (Some 3000%N))) as [e|[]] eqn:Hc;
      cbn [fst snd].
    + destruct (IH (hist ++ [Event (Click selector (Some 3000%N)) (inl e)]))
        as (b & new & Hrun & Hq & Hn).
      exists b, (Event (Click selector (Some 3000%N)) (inl e) :: new).
      rewrite Hrun, <- app_assoc. split_and!; [done|by constructor|].
      intros Hno. apply Hn. by inversion Hno.
    + rewrite run_ret_m. cbn [fst snd].
      exists true, [Event (Click selector (Some 3000%N)) (inr ())].
      split_and!; [done|by repeat constructor|].
      intros Hno. by inversion Hno.
Qed.

Lemma click_button_by_text_spec name buttons world hist s :
  ∃ r new,
    run world hist (click_button_by_text name buttons s) = ((r, s), hist ++ new) ∧
    quiet new ∧ (no_click new → r ≠ ok true).
Proof.
  revert hist. induction buttons as [|btn rest IH]; intros hist.
  - exists (ok false), []. rewrite app_nil_r. by repeat split; try constructor.
  - cbn [click_button_by_text]. rewrite run_bind_m, run_await. cbn [fst snd].
    destruct (world hist _ (InnerText btn)) as [e|text] eqn:Ht; cbn [fst snd].
    { exists (inl e), [Event (InnerText btn) (inl e)].
      split_and!; [done|by repeat constructor|done]. }
    rewrite run_bind_m, run_lift. cbn [fst snd].
    destruct (split_ws name) as [|first_word ws]; unfold ok, raise; cbn [fst snd].
    { exists (raise IndexError), [Event (InnerText btn) (inr text)].
      split_and!; [done|by repeat constructor|done]. }
    destruct (contains first_word text); cbn [fst snd].
    + rewrite run_bind_m, run_await. cbn [fst snd].
      destruct (world _ _ (ClickHandle btn)) as [e|[]] eqn:Hc; cbn [fst snd].
      * exists (inl e), [Event (InnerText btn) (inr text); Event (ClickHandle btn) (inl e)].
        rewrite <- app_assoc. split_and!; [done|by repeat constructor|done].
      * exists (ok true), [Event (InnerText btn) (inr text); Event (ClickHandle btn) (inr ())].
        rewrite <- app_assoc. split_and!; [done|by repeat constructor|].
        intros Hno. inversion Hno as [|?? _ Hno']. by inversion Hno'.
    + destruct (IH (hist ++ [Event (InnerText btn) (inr text)]))
        as (r & new & Hrun & Hq & Hn).
      exists r, (Event (InnerText btn) (inr text) :: new).
      rewrite Hrun, <- app_assoc. split_and!; [done|by constructor|].
      intros Hno. apply Hn. by inversion Hno.
Qed.

Lemma run_get_session world hist s :
  run world hist (get_session s) = ((ok s, s), hist).
Proof. reflexivity. Qed.

Lemma run_raise_m {A} world hist e s :
  run world hist (raise_m (A:=A) e s) = ((raise e, s), hist).
Proof. reflexivity. Qed.

(** After a click: wait for the network, then the settle delay. *)
Lemma settle_spec world hist s :
  ∃ r new,
    run world hist
      ((await (WaitForLoadState "networkidle");;; perform (Sleep 1);;; ret_m true) s)
    = ((r, s), hist ++ new) ∧ quiet new ∧ no_click new.
Proof.
  rewrite run_bind_m, run_await. cbn [fst snd].
  destruct (world hist _ (WaitForLoadState "networkidle")) as [e|[]] eqn:Hw; cbn [fst snd].
  - exists (inl e), [Event (WaitForLoadState "networkidle") (inl e)].
    by split_and!; repeat constructor.
  - rewrite run_bind_m, run_perform. unfold ok. cbn [fst snd]. rewrite run_ret_m.
    eexists _, [Event (WaitForLoadState "networkidle") (inr ()); Event (Sleep 1) _].
    rewrite <- app_assoc. by split_and!; repeat constructor.
Qed.

Lemma select_procedure_body_spec name world hist s :
  ∃ r new,
    run world hist (select_procedure_body name s) = ((r, s), hist ++ new) ∧
    quiet new ∧ (no_click new → r ≠ ok true).
Proof.
  unfold select_procedure_body.
  destruct (click_first_spec (procedure_selectors name) world hist s)
    as (b & new1 & Hrun1 & Hq1 & Hn1).
  rewrite run_bind_m, Hrun1. unfold ok. cbn [fst snd].
  destruct b; cbn [negb].
  - rewrite run_bind_m, run_ret_m. unfold ok. cbn [fst snd].
    destruct (settle_spec world (hist ++ new1) s) as (r & new2 & Hrun2 & Hq2 & Hn2).
    exists r, (new1 ++ new2). rewrite Hrun2, <- app_assoc.
    split_and!; [done|by apply Forall_app|].
    intros [Hno _]%Forall_app. by apply Hn1 in Hno.
  - rewrite !run_bind_m, run_await. cbn [fst snd].
    destruct (world (hist ++ new1) _ (QuerySelectorAll "button.btn"))
      as [e|buttons] eqn:Hqs; cbn [fst snd].
    { exists (inl e), (new1 ++ [Event (QuerySelectorAll "button.btn") (inl e)]).
      rewrite <- app_assoc.
      split_and!; [done|apply Forall_app; by repeat constructor|done]. }
    destruct (click_button_by_text_spec name buttons world
                ((hist ++ new1) ++ [Event (QuerySelectorAll "button.btn") (inr buttons)]) s)
      as (r & new2 & Hrun2 & Hq2 & Hn2).
    rewrite Hrun2. cbn [fst snd].
    destruct r as [e|[|]]; cbn [fst snd].
    + exists (inl e), (new1 ++ Event (QuerySelectorAll "button.btn") (inr buttons) :: new2).
      rewrite <- !app_assoc.
      split_and!; [done|apply Forall_app; split; [done|by constructor]|done].
    + destruct (settle_spec world
          (((hist ++ new1) ++ [Event (QuerySelectorAll "button.btn") (inr buttons)]) ++ new2) s)
        as (r & new3 & Hrun3 & Hq3 & Hn3).
      exists r, (new1 ++ Event (QuerySelectorAll "button.btn") (inr buttons) :: new2 ++ new3).
      rewrite Hrun3, <- !app_assoc.
      split_and!; [done| |].
      * apply Forall_app; split; [done|]. constructor; [done|by apply Forall_app].
      * intros [_ Hno]%Forall_app. inversion Hno as [|?? _ Hno']; subst.
        apply Forall_app in Hno' as [Hno' _]. by apply Hn2 in Hno'.
    + rewrite run_ret_m.
      exists (inr false), (new1 ++ Event (QuerySelectorAll "button.btn") (inr buttons) :: new2).
      rewrite <- !app_assoc.
      split_and!; [done|apply Forall_app; split; [done|by constructor]|done].
Qed.

Lemma select_procedure_unfold procedure_id s :
  is_authenticated s = true →
  select_procedure procedure_id s
  = try_except
      (select_procedure_body (default procedure_id (procedure_map !! procedure_id)))
      (λ _, ret_m false) s.
Proof.
  intros Hauth. unfold select_procedure. unfold bind_m at 1. unfold get_session.
  cbn [pbind]. unfold ok at 1. cbn [fst snd]. by rewrite Hauth.
Qed.

(** [select_procedure] on an authenticated session: a Boolean comes back,
    the session is as before, and the Boolean is [False] when no click went
    through. *)
Lemma select_procedure_spec procedure_id world hist s :
  is_authenticated s = true →
  ∃ b new,
    run world hist (select_procedure procedure_id s) = ((ok b, s), hist ++ new) ∧
    quiet new ∧ (no_click new → b = false).
Proof.
  intros Hauth. rewrite select_procedure_unfold by done.
  destruct (select_procedure_body_spec
              (default procedure_id (procedure_map !! procedure_id)) world hist s)
    as (r & new & Hrun & Hq & Hn).
  rewrite run_try_except, Hrun. cbn [fst snd].
  destruct r as [e|b]; cbn [fst snd].
  - rewrite run_ret_m. by exists false, new.
  - exists b, new. split_and!; [done|done|].
    intros Hno. apply Hn in Hno. destruct b; [done|done].
Qed.

Lemma select_procedure_unauthenticated procedure_id s :
  is_authenticated s = false →
  select_procedure procedure_id s = Ret (raise MustLoginFirst, s).
Proof.
  intros Hauth. unfold select_procedure. unfold bind_m at 1. unfold get_session.
  cbn [pbind]. unfold ok at 1. cbn [fst snd]. by rewrite Hauth.
Qed.

Lemma get_slots_by_region_unauthenticated procedure_id region_id s :
  is_authenticated s = false →
  get_slots_by_region procedure_id region_id s = Ret (raise MustLoginFirst, s).
Proof.
  intros Hauth. unfold get_slots_by_region. unfold bind_m at 1. unfold get_session.
  cbn [pbind]. unfold ok at 1. cbn [fst snd]. by rewrite Hauth.
Qed.

(** What is left of [get_slots_by_region] on an authenticated session. *)
Lemma get_slots_by_region_unfold procedure_id region_id s :
  is_authenticated s = true →
  get_slots_by_region procedure_id region_id s
  = (selected <- select_procedure procedure_id;;
     if negb selected then ret_m []
     else
       selected <- select_region region_id;;
       if negb selected then ret_m []
       else
         try_except
           (perform (Sleep 2);;;
            slots_data <- await EvaluateSlotScript;;
            ret_m (remove_duplicates (extract_slots slots_data)))
           (λ _, ret_m [])) s.
Proof.
  intros Hauth. unfold get_slots_by_region. unfold bind_m at 1. unfold get_session.
  cbn [pbind]. unfold ok at 1. cbn [fst snd]. by rewrite Hauth.
Qed.

(** C9: on a session that is not authenticated, [select_procedure] and
    [get_slots_by_region] raise the "Must login first" error; no call is
    made to the browser (the history is as before) and the session is
    untouched. *)
Theorem unauthenticated_call_raises_first
    (world : env) (hist : list event) (sess : session) (pid rid : string) :
  is_authenticated sess = false →
  run world hist (select_procedure pid sess) = ((raise MustLoginFirst, sess), hist) ∧
  run world hist (get_slots_by_region pid rid sess) = ((raise MustLoginFirst, sess), hist).
Proof.
  intros Hauth.
  by rewrite select_procedure_unauthenticated, get_slots_by_region_unauthenticated.
Qed.

Lemma unauthenticated_call_raises_first_witness :
  run no_match_world [] (select_procedure "6" (Session true false))
  = ((raise MustLoginFirst, Session true false), []) ∧
  run no_match_world [] (get_slots_by_region "6" "13" (Session true false))
  = ((raise MustLoginFirst, Session true false), []).
Proof.
  apply (unauthenticated_call_raises_first no_match_world [] (Session true false) "6" "13").
  reflexivity.
Defined.

(** C8: on an authenticated session [select_procedure] never raises: it
    returns a Boolean and leaves the session as it was.  When none of its
    clicks (on the three selectors, or on a button found by its text) went
    through, the Boolean is [False]; and whenever it is [False],
    [get_slots_by_region] returns the empty list after the very same
    calls, none of which belongs to the region selection or the
    extraction. *)
Theorem failed_selection_short_circuits
    (world : env) (hist : list event) (sess : session) (pid rid : string) :
  is_authenticated sess = true →
  ∃ selected new,
    run world hist (select_procedure pid sess) = ((ok selected, sess), hist ++ new) ∧
    Forall (λ ev, region_or_extraction ev = false) new ∧
    (Forall (λ ev, click_succeeded ev = false) new → selected = false) ∧
    (selected = false →
     run world hist (get_slots_by_region pid rid sess) = ((ok [], sess), hist ++ new)).
Proof.
  intros Hauth.
  destruct (select_procedure_spec pid world hist sess Hauth) as (b & new & Hrun & Hq & Hn).
  exists b, new. split_and!; [done|done|done|].
  intros ->. rewrite get_slots_by_region_unfold by done.
  rewrite run_bind_m, Hrun. unfold ok. cbn [fst snd negb]. apply run_ret_m.
Qed.

Lemma failed_selection_short_circuits_witness :
  ∃ selected new,
    run no_match_world [] (select_procedure "6" (Session true true))
    = ((ok selected, Session true true), [] ++ new) ∧
    Forall (λ ev, region_or_extraction ev = false) new ∧
    (Forall (λ ev, click_succeeded ev = false) new → selected = false) ∧
    (selected = false →
     run no_match_world [] (get_slots_by_region "6" "13" (Session true true))
     = ((ok [], Session true true), [] ++ new)).
Proof.
  apply (failed_selection_short_circuits no_match_world [] (Session true true) "6" "13").
  reflexivity.
Defined.

(** ** Login *)

Lemma login_unfold config s :
  has_page s = true →
  login config s = try_except (login_body config) (λ _, ret_m false) s.
Proof.
  intros Hpage. unfold login. unfold bind_m at 1. unfold get_session.
  cbn [pbind]. unfold ok at 1. cbn [fst snd]. rewrite Hpage. cbn [negb].
  unfold bind_m at 1. unfold ret_m at 1. cbn [pbind]. unfold ok at 1. by cbn [fst snd].
Qed.

Ltac await_step := rewrite run_bind_m, run_await; cbn [fst snd].
Ltac perform_step := rewrite run_bind_m, run_perform; cbn [fst snd].

(** The body of the login either raises, or fails and leaves the session,
    or succeeds and marks the session authenticated. *)
Lemma login_body_spec config world hist s :
  ∃ r new,
    run world hist (login_body config s) = (r, hist ++ new) ∧
    (r = (ok true, Session (has_page s) true) ∨ r = (ok false, s) ∨ ∃ e, r = (inl e, s)).
Proof.
  unfold login_body.
  await_step. destruct (world hist _ (Goto _ _)) as [e|[]] eqn:H1; cbn [fst snd].
  { eexists _, [_]. split; [reflexivity|]. right; right. by exists e. }
  perform_step. await_step. set (h2 := (hist ++ [_]) ++ [_]).
  destruct (world h2 _ Title) as [e|title] eqn:H2; cbn [fst snd].
  { eexists _, [_; _; _]. unfold h2. rewrite <- !app_assoc.
    split; [reflexivity|]. right; right. by exists e. }
  destruct (contains "Request Rejected" title).
  { rewrite run_ret_m. eexists _, [_; _; _]. unfold h2. rewrite <- !app_assoc.
    split; [reflexivity|]. by right; left. }
  await_step. set (h3 := h2 ++ [_]).
  destruct (world h3 _ (WaitForSelector _ _)) as [e|[]] eqn:H3; cbn [fst snd].
  { eexists _, [_; _; _; _]. unfold h3, h2. rewrite <- !app_assoc.
    split; [reflexivity|]. right; right. by exists e. }
  await_step. set (h4 := h3 ++ [_]).
  destruct (world h4 _ (Fill _ (rut config))) as [e|[]] eqn:H4; cbn [fst snd].
  { eexists _, [_; _; _; _; _]. unfold h4, h3, h2. rewrite <- !app_assoc.
    split; [reflexivity|]. right; right. by exists e. }
  await_step. set (h5 := h4 ++ [_]).
  destruct (world h5 _ (Fill _ (password config))) as [e|[]] eqn:H5; cbn [fst snd].
  { eexists _, [_; _; _; _; _; _]. unfold h5, h4, h3, h2. rewrite <- !app_assoc.
    split; [reflexivity|]. right; right. by exists e. }
  await_step. set (h6 := h5 ++ [_]).
  destruct (world h6 _ (Click _ None)) as [e|[]] eqn:H6; cbn [fst snd].
  { eexists _, [_; _; _; _; _; _; _]. unfold h6, h5, h4, h3, h2. rewrite <- !app_assoc.
    split; [reflexivity|]. right; right. by exists e. }
  await_step. set (h7 := h6 ++ [_]).
  destruct (world h7 _ (WaitForLoadState _)) as [e|[]] eqn:H7; cbn [fst snd].
  { eexists _, [_; _; _; _; _; _; _; _]. unfold h7, h6, h5, h4, h3, h2.
    rewrite <- !app_assoc. split; [reflexivity|]. right; right. by exists e. }
  perform_step. perform_step. await_step. set (h10 := ((h7 ++ [_]) ++ [_]) ++ [_]).
  destruct (world h10 _ Title) as [e|title2] eqn:H8; cbn [fst snd].
  { eexists _, [_; _; _; _; _; _; _; _; _; _; _].
    unfold h10, h7, h6, h5, h4, h3, h2.
    rewrite <- !app_assoc. split; [reflexivity|]. right; right. by exists e. }
  destruct (_ || _).
  - rewrite run_bind_m. unfold set_authenticated at 1. cbn [run fst snd].
    rewrite run_ret_m.
    eexists _, [_; _; _; _; _; _; _; _; _; _; _].
    unfold h10, h7, h6, h5, h4, h3, h2.
    rewrite <- !app_assoc. split; [reflexivity|]. by left.
  - rewrite run_ret_m.
    eexists _, [_; _; _; _; _; _; _; _; _; _; _].
    unfold h10, h7, h6, h5, h4, h3, h2.
    rewrite <- !app_assoc. split; [reflexivity|]. by right; left.
Qed.

(** [login] with the browser started: a Boolean comes back, never an
    exception; on [False] the session is as before. *)
Lemma login_spec config world hist s :
  has_page s = true →
  ∃ (b : bool) new,
    run world hist (login config s)
    = ((ok b, if b then Session (has_page s) true else s), hist ++ new).
Proof.
  intros Hpage. rewrite login_unfold by done.
  destruct (login_body_spec config world hist s) as (r & new & Hrun & Hr).
  rewrite run_try_except, Hrun. cbn [fst snd].
  destruct Hr as [->|[->|[e ->]]]; cbn [fst snd].
  - by exists true, new.
  - by exists false, new.
  - rewrite run_ret_m. by exists false, new.
Qed.

Lemma serve_after_failed_login config pid rid world hist s new :
  run world hist (login config s) = ((ok false, s), hist ++ new) →
  run world hist (serve config pid rid s) = ((raise login_failed, s), hist ++ new).
Proof.
  intros Hrun. unfold serve. rewrite run_bind_m, Hrun. unfold ok. by cbn [fst snd negb].
Qed.

(** C4 (as the code has it): when the title read after the navigation
    holds the block-page signature, [login] returns the plain [False] after
    three calls, without touching the form and without marking the
    session.  In every environment [login] returns a Boolean, so a block,
    bad credentials and an exception all end in the same [False], and the
    handler turns each of them into the same 503 error. *)
Theorem blocked_login_returns_plain_false
    (world : env) (hist : list event) (config : SRCEIConfig) (sess : session)
    (title pid rid : string) :
  has_page sess = true →
  world hist _ (Goto login_url "networkidle") = ok () →
  world (hist ++ [Event (Goto login_url "networkidle") (ok ()); Event (Sleep 1) ()]) _ Title
  = ok title →
  contains "Request Rejected" title = true →
  run world hist (login config sess) = ((ok false, sess), hist ++ blocked_calls title) ∧
  run world hist (serve config pid rid sess)
  = ((raise login_failed, sess), hist ++ blocked_calls title) ∧
  (∀ world' hist', ∃ (b : bool) new,
     run world' hist' (login config sess)
     = ((ok b, if b then Session (has_page sess) true else sess), hist' ++ new) ∧
     (b = false →
      run world' hist' (serve config pid rid sess)
      = ((raise login_failed, sess), hist' ++ new))).
Proof.
  intros Hpage Hgoto Htitle Hblock.
  assert (run world hist (login config sess)
          = ((ok false, sess), hist ++ blocked_calls title)) as Hlogin.
  { unfold ok in Hgoto, Htitle.
    rewrite login_unfold by done. rewrite run_try_except. unfold login_body.
    await_step. fold login_url. rewrite Hgoto. cbn [fst snd].
    perform_step.
    destruct (world (hist ++ [Event (Goto login_url "networkidle") (inr ())]) _
                (Sleep 1)).
    await_step. rewrite <- (app_assoc hist). cbn [app].
    rewrite Htitle. cbn [fst snd]. rewrite Hblock.
    rewrite run_ret_m. cbn [fst snd]. by rewrite <- app_assoc. }
  split_and!; [done|by apply serve_after_failed_login|].
  intros world' hist'.
  destruct (login_spec config world' hist' sess Hpage) as (b & new & Hrun).
  exists b, new. split; [done|]. intros ->. by apply serve_after_failed_login.
Qed.

Lemma blocked_login_returns_plain_false_witness :
  run blocked_world [] (login test_config (Session true false))
  = ((ok false, Session true false), blocked_calls "Request Rejected").
Proof.
  apply (blocked_login_returns_plain_false blocked_world [] test_config
           (Session true false) "Request Rejected" "6" "13");
    reflexivity.
Defined.

Lemma blocked_same_as_bad_credentials :
  (run blocked_world [] (login test_config (Session true false))).1
  = (run bad_credentials_world [] (login test_config (Session true false))).1 ∧
  (run blocked_world [] (serve test_config "6" "13" (Session true false))).1
  = (raise login_failed, Session true false) ∧
  (run bad_credentials_world [] (serve test_config "6" "13" (Session true false))).1
  = (raise login_failed, Session true false) ∧
  outcome (raise login_failed) = Raised 503 "Failed to authenticate with SRCEI" None.
Proof. split_and!; vm_compute; reflexivity. Qed.

(** * Further properties of the code *)

(** ** Sorting again *)

Lemma insert_by_key_least {A} (x : string * A) l :
  Forall (key_le x) l → insert_by_key x l = x :: l.
Proof.
  destruct 1 as [|y r Hy _]; simpl; [done|].
  unfold key_le, String.le in Hy. apply Is_true_true in Hy. by rewrite Hy.
Qed.

Lemma sort_keyed_of_sorted {A} (l : list (string * A)) :
  StronglySorted key_le l → sort_keyed l = l.
Proof.
  induction 1 as [|x r Hr IH Hx]; simpl; [done|].
  rewrite IH. by apply insert_by_key_least.
Qed.

Lemma keyed_inv {A} (key : A → result string) l kl :
  keyed key l = ok kl → kl.*2 = l ∧ Forall (decorated key) kl.
Proof.
  revert kl. induction l as [|x r IH]; simpl; intros kl.
  - intros [= <-]. by split.
  - destruct (key x) as [e|k] eqn:Hk; simpl; [done|].
    destruct (keyed key r) as [e|kr] eqn:Hkr; simpl; [done|].
    intros [= <-]. destruct (IH kr eq_refl) as [Hsnd Hdec].
    split; [by rewrite fmap_cons, Hsnd|by constructor].
Qed.

Lemma keyed_of_decorated {A} (key : A → result string) (kl : list (string * A)) :
  Forall (decorated key) kl → keyed key (kl.*2) = ok kl.
Proof.
  induction 1 as [|[k x] r Hp _ IH]; [done|].
  unfold decorated in Hp. rewrite fmap_cons. cbn [keyed snd fst] in *.
  by rewrite Hp, IH.
Qed.

Lemma py_sorted_idempotent {A} (key : A → result string) l out :
  py_sorted key l = ok out → py_sorted key out = ok out.
Proof.
  unfold py_sorted. destruct (keyed key l) as [e|kl] eqn:Hkl; simpl; [done|].
  intros [= <-]. apply keyed_inv in Hkl as [_ Hdec].
  rewrite keyed_of_decorated by (by rewrite sort_keyed_perm). simpl.
  by rewrite sort_keyed_of_sorted by apply sort_keyed_sorted.
Qed.

(** X1: sorting a list that [sort_slots_by_datetime] has returned gives
    the same list again. *)
Theorem sort_slots_by_datetime_idempotent (slots out : list slot) :
  sort_slots_by_datetime slots = ok out →
  sort_slots_by_datetime out = ok out.
Proof. apply py_sorted_idempotent. Qed.

Lemma sort_slots_by_datetime_idempotent_witness :
  sort_slots_by_datetime
    [Slot "C" "" "29/01/2026" "09:30" "";
     Slot "A" "" "29/01/2026" "15:00" "";
     Slot "B" "" "30/01/2026" "10:00" ""]
  = ok [Slot "C" "" "29/01/2026" "09:30" "";
        Slot "A" "" "29/01/2026" "15:00" "";
        Slot "B" "" "30/01/2026" "10:00" ""].
Proof.
  apply (sort_slots_by_datetime_idempotent test_slots). reflexivity.
Defined.

(** ** Removing duplicates again *)

Lemma first_seen_of_distinct {K} `{EqDecision K} (key : slot → K) earlier l :
  NoDup (key <$> earlier ++ l) → first_seen key earlier l = l.
Proof.
  revert earlier. induction l as [|x r IH]; intros earlier Hnd; simpl; [done|].
  rewrite IH by (by rewrite <- app_assoc).
  rewrite decide_False; [done|].
  rewrite fmap_app, fmap_cons in Hnd. apply NoDup_app in Hnd as (_ & Hdis & _).
  intros Hin. apply (Hdis _ Hin). by left.
Qed.

(** X2: the duplicate filter, on any list of records: its output is a
    sublist of the input in which no two records share the key text
    office_date_time, every key of the input is still there, and filtering
    the output again changes nothing. *)
Theorem remove_duplicates_idempotent (slots_data : list slot) :
  sublist (remove_duplicates slots_data) slots_data ∧
  NoDup (dedup_key <$> remove_duplicates slots_data) ∧
  (∀ s, s ∈ slots_data → dedup_key s ∈ dedup_key <$> remove_duplicates slots_data) ∧
  remove_duplicates (remove_duplicates slots_data) = remove_duplicates slots_data.
Proof.
  rewrite !remove_duplicates_first_seen_key. split_and!.
  - apply first_seen_sublist.
  - apply first_seen_NoDup.
  - intros s Hs.
    destruct (first_seen_covers dedup_key [] slots_data s Hs) as [Hin|Hin]; [|done].
    by apply elem_of_nil in Hin.
  - apply first_seen_of_distinct. apply first_seen_NoDup.
Qed.

(** ** The two month tables *)

Lemma month_line_number line :
  is_month_line line = true →
  ∃ i name,
    monthNames !! i = Some name ∧
    lower line = lower name ∧
    monthMap !! lower line = Some (two_digits (i + 1)).
Proof.
  unfold is_month_line, monthNames. cbn [existsb].
  intros H.
  repeat (apply orb_true_iff in H as [H|H];
    [apply String.eqb_eq in H; rewrite H;
     first [ by exists 0, "Enero" | by exists 1, "Febrero" | by exists 2, "Marzo"
           | by exists 3, "Abril" | by exists 4, "Mayo" | by exists 5, "Junio"
           | by exists 6, "Julio" | by exists 7, "Agosto" | by exists 8, "Septiembre"
           | by exists 9, "Octubre" | by exists 10, "Noviembre" | by exists 11, "Diciembre" ]
    |]).
  done.
Qed.

(** X3: the list of month names and the map of month numbers agree: a line
    that the scan takes for a month, in any letter case, is the i-th name
    of the list and has the entry i (two digits, from 01) in the map, so
    the fallback "01" of the script is never taken. *)
Theorem month_tables_agree (line : string) :
  is_month_line line = true →
  ∃ i name,
    i < 12 ∧
    monthNames !! i = Some name ∧
    lower line = lower name ∧
    monthMap !! lower line = Some (two_digits (i + 1)).
Proof.
  intros (i & name & Hi & Hl & Hm)%month_line_number.
  exists i, name. split_and!; try done.
  apply lookup_lt_Some in Hi. exact Hi.
Qed.

Lemma month_tables_agree_witness :
  ∃ i name,
    i < 12 ∧
    monthNames !! i = Some name ∧
    lower "MARZO" = lower name ∧
    monthMap !! lower "MARZO" = Some (two_digits (i + 1)).
Proof. apply (month_tables_agree "MARZO"). reflexivity. Defined.

(** ** What the extraction emits *)

Lemma string_of_uint_digits d :
  all_chars is_digit (NilEmpty.string_of_uint d) = true.
Proof. induction d; simpl; done. Qed.

Lemma decimal_digits n : all_chars is_digit (decimal n) = true.
Proof.
  unfold decimal, NilZero.string_of_uint.
  destruct (N.to_uint n) eqn:E; try done; rewrite <- E; apply string_of_uint_digits.
Qed.

Lemma last_match_holds p lines :
  last_match p lines ≠ "" → p (last_match p lines) = true.
Proof.
  induction lines as [|line lines IH] using rev_ind; [done|].
  rewrite last_match_snoc. by destruct (p line) eqn:Hp.
Qed.

Lemma padStart_day d :
  is_day_line d = true →
  String.length (padStart 2 "0" d) = 2 ∧ all_chars is_digit (padStart 2 "0" d) = true.
Proof.
  unfold is_day_line, one_or_two_digits.
  intros [[H _]%andb_true_iff _]%andb_true_iff.
  destruct d as [|a [|b [|c d]]]; simpl in H; try done.
  - split; [done|]. simpl. by rewrite H.
  - split; [done|]. apply andb_true_iff in H as [Ha Hb].
    change (is_digit a && (is_digit b && true) = true). by rewrite Ha, Hb.
Qed.

Lemma is_raw_date_intro dd mm yy :
  String.length dd = 2 → all_chars is_digit dd = true →
  String.length mm = 2 → all_chars is_digit mm = true →
  all_chars is_digit yy = true →
  is_raw_date (dd +:+ "/" +:+ mm +:+ "/" +:+ yy) = true.
Proof.
  intros Hd Hdd Hm Hmm Hyy. unfold is_raw_date.
  change (dd +:+ "/" +:+ mm +:+ "/" +:+ yy)
    with (dd +:+ String "/" (mm +:+ String "/" yy)).
  rewrite split_on_three by (by apply digits_free_of).
  by rewrite Hd, Hm, Hdd, Hmm, Hyy.
Qed.

Lemma card_record_raw year lines r :
  card_record year lines = Some r →
  raw_slot_ok r ∧ idOficina r = "" ∧ nombreOficina r ≠ "".
Proof.
  unfold card_record. rewrite scan_lines_last. cbn [tok_day tok_month tok_time].
  destruct (truthy (default "" (lines !! 0))) eqn:Ho; [|done].
  destruct (truthy (last_match is_day_line lines)) eqn:Hd; [|done].
  destruct (truthy (last_match is_month_line lines)) eqn:Hm; [|done].
  cbn [andb]. intros [= <-]. cbn [nombreOficina idOficina].
  apply truthy_true in Ho, Hd, Hm.
  apply last_match_holds in Hd, Hm.
  destruct (padStart_day _ Hd) as [Hlen Hdig].
  destruct (month_line_number _ Hm) as (i & name & Hi & _ & Hmap).
  apply lookup_lt_Some in Hi. change (length monthNames) with 12 in Hi.
  rewrite Hmap.
  assert (truthy (two_digits (i + 1)) = true) as -> by done.
  split_and!; [|done|done]. split; cbn [fechaDisponible horaDisponible].
  - apply is_raw_date_intro; [done|done|done| |apply decimal_digits].
    apply two_digits_digits. lia.
  - destruct (truthy (last_match is_time_line lines)) eqn:Ht; [|done].
    apply last_match_holds. by apply truthy_true.
Qed.

Lemma extract_slots_raw d :
  Forall (λ r, raw_slot_ok r ∧ idOficina r = "" ∧ nombreOficina r ≠ "") (extract_slots d).
Proof.
  apply Forall_forall. intros r (text & _ & Hr)%list_elem_of_omap.
  unfold card_slot in Hr. destruct (contains "Agendar" text); [|done].
  by apply card_record_raw in Hr.
Qed.

Lemma length_omap_filter {A B} (f : A → option B) (P : A → Prop)
    `{∀ x, Decision (P x)} l :
  (∀ x, is_Some (f x) → P x) → length (omap f l) ≤ length (filter P l).
Proof.
  intros Hf. induction l as [|x l IH]; [done|].
  rewrite filter_cons.
  change (omap f (x :: l))
    with (match f x with Some y => y :: omap f l | None => omap f l end).
  destruct (f x) eqn:Hx.
  - rewrite decide_True by (apply Hf; by rewrite Hx). cbn [length]. lia.
  - case_decide; cbn [length]; lia.
Qed.

(** X4: every record that the extraction script emits is a raw slot
    record: its date is two digits, two digits and the year in digits with
    "/" between them, its time is the time line found or "00:00", its
    office name is not blank and its office identifier is empty.  A card
    gives at most one record, and a card without the word Agendar gives
    none. *)
Theorem extraction_emits_raw_records (d : dom_snapshot) :
  Forall (λ r, raw_slot_ok r ∧ idOficina r = "" ∧ nombreOficina r ≠ "") (extract_slots d) ∧
  length (extract_slots d)
  ≤ length (filter (λ text, contains "Agendar" text = true) (cards d)).
Proof.
  split; [apply extract_slots_raw|].
  unfold extract_slots. apply length_omap_filter.
  intros text [r Hr]. unfold card_slot in Hr.
  by destruct (contains "Agendar" text).
Qed.

(** ** Region selection *)

Lemma select_first_spec region_id selectors world hist s :
  ∃ b new,
    run world hist (select_first region_id selectors s) = ((ok b, s), hist ++ new) ∧
    Forall (λ ev, is_extraction ev = false) new ∧
    (Forall (λ ev, dropdown_found ev = false) new → b = false) ∧
    (b = true → Exists (λ ev, region_selected region_id ev = true) new).
Proof.
  revert hist. induction selectors as [|selector rest IH]; intros hist.
  - exists false, []. rewrite app_nil_r. split_and!; done.
  - cbn [select_first]. rewrite run_bind_m, run_try_except, run_bind_m, run_await.
    cbn [fst snd].
    destruct (world hist _ (QuerySelector selector)) as [e|[h|]] eqn:Hq; cbn [fst snd].
    + rewrite run_ret_m. cbn [fst snd].
      destruct (IH (hist ++ [Event (QuerySelector selector) (inl e)]))
        as (b & new & Hrun & Hx & Hd & Hs).
      exists b, (Event (QuerySelector selector) (inl e) :: new).
      rewrite Hrun, <- app_assoc. split_and!; [done|by constructor| |].
      * intros Hno. apply Hd. by inversion Hno.
      * intros Hb. apply Exists_cons_tl. by apply Hs.
    + rewrite run_bind_m, run_await. cbn [fst snd].
      set (h1 := hist ++ [Event (QuerySelector selector) (inr (Some h))]).
      destruct (world h1 _ (SelectOption selector region_id)) as [e|[]] eqn:Ho;
        cbn [fst snd].
      * rewrite run_ret_m. cbn [fst snd].
        destruct (IH (h1 ++ [Event (SelectOption selector region_id) (inl e)]))
          as (b & new & Hrun & Hx & Hd & Hs).
        exists b, (Event (QuerySelector selector) (inr (Some h))
                   :: Event (SelectOption selector region_id) (inl e) :: new).
        rewrite Hrun. unfold h1. rewrite <- !app_assoc.
        split_and!; [done|by repeat constructor| |].
        -- intros Hno. by inversion Hno.
        -- intros Hb. do 2 apply Exists_cons_tl. by apply Hs.
      * rewrite !run_ret_m. cbn [fst snd].
        exists true, [Event (QuerySelector selector) (inr (Some h));
                      Event (SelectOption selector region_id) (inr ())].
        unfold h1. rewrite <- !app_assoc.
        split_and!; [done|by repeat constructor| |].
        -- intros Hno. by inversion Hno.
        -- intros _. apply Exists_cons_tl, Exists_cons_hd. simpl.
           apply String.eqb_refl.
    + rewrite run_ret_m. cbn [fst snd].
      destruct (IH (hist ++ [Event (QuerySelector selector) (inr None)]))
        as (b & new & Hrun & Hx & Hd & Hs).
      exists b, (Event (QuerySelector selector) (inr None) :: new).
      rewrite Hrun, <- app_assoc. split_and!; [done|by constructor| |].
      * intros Hno. apply Hd. by inversion Hno.
      * intros Hb. apply Exists_cons_tl. by apply Hs.
Qed.

Lemma select_region_body_spec region_id world hist s :
  ∃ r new,
    run world hist (select_region_body region_id s) = ((r, s), hist ++ new) ∧
    Forall (λ ev, is_extraction ev = false) new ∧
    (Forall (λ ev, dropdown_found ev = false) new → r ≠ ok true) ∧
    (r = ok true → Exists (λ ev, region_selected region_id ev = true) new).
Proof.
  unfold select_region_body. perform_step.
  set (h1 := hist ++ [Event (Sleep 1) _]).
  destruct (select_first_spec region_id region_selectors world h1 s)
    as (b & new1 & Hrun1 & Hx1 & Hd1 & Hs1).
  rewrite run_bind_m, Hrun1. unfold ok at 1. cbn [fst snd].
  destruct b; cbn [negb].
  - perform_step. await_step.
    set (h2 := (h1 ++ new1) ++ [Event (Sleep 1) _]).
    destruct (world h2 _ (WaitForLoadState "networkidle")) as [e|[]] eqn:Hw;
      cbn [fst snd].
    + eexists (inl e), (_ :: new1 ++ [_; _]).
      unfold h2, h1. rewrite <- !app_assoc. split_and!; [reflexivity| | |done].
      * constructor; [done|]. apply Forall_app. split; [done|by repeat constructor].
      * done.
    + rewrite run_ret_m.
      eexists (inr true), (_ :: new1 ++ [_; _]).
      unfold h2, h1. rewrite <- !app_assoc. split_and!; [reflexivity| | |].
      * constructor; [done|]. apply Forall_app. split; [done|by repeat constructor].
      * intros Hno. inversion Hno as [|?? _ Hno']; subst.
        apply Forall_app in Hno' as [Hno' _]. by apply Hd1 in Hno'.
      * intros _. apply Exists_cons_tl, Exists_app. left. by apply Hs1.
  - rewrite run_ret_m. eexists (inr false), (_ :: new1).
    unfold h1. rewrite <- !app_assoc.
    split_and!; [reflexivity|by constructor|done|done].
Qed.

Lemma select_region_spec region_id world hist s :
  ∃ b new,
    run world hist (select_region region_id s) = ((ok b, s), hist ++ new) ∧
    Forall (λ ev, is_extraction ev = false) new ∧
    (Forall (λ ev, dropdown_found ev = false) new → b = false) ∧
    (b = true → Exists (λ ev, region_selected region_id ev = true) new).
Proof.
  change (select_region region_id s)
    with (try_except (select_region_body region_id) (λ _, ret_m false) s).
  destruct (select_region_body_spec region_id world hist s)
    as (r & new & Hrun & Hx & Hd & Hs).
  rewrite run_try_except, Hrun. cbn [fst snd].
  destruct r as [e|b]; cbn [fst snd].
  - rewrite run_ret_m. exists false, new. split_and!; done.
  - exists b, new. split_and!; [done|done| |].
    + intros Hno. apply Hd in Hno. by destruct b.
    + intros ->. by apply Hs.
Qed.

(** X5: [select_region] never raises and leaves the session as it was: it
    returns a Boolean.  The Boolean is [False] when no dropdown query found
    an element, and when it is [True] the region id was chosen in a
    dropdown by a call that did not raise. *)
Theorem select_region_returns_boolean
    (world : env) (hist : list event) (sess : session) (rid : string) :
  ∃ selected new,
    run world hist (select_region rid sess) = ((ok selected, sess), hist ++ new) ∧
    (Forall (λ ev, dropdown_found ev = false) new → selected = false) ∧
    (selected = true → Exists (λ ev, region_selected rid ev = true) new).
Proof.
  destruct (select_region_spec rid world hist sess) as (b & new & Hrun & _ & Hd & Hs).
  by exists b, new.
Qed.

(** ** The slot-fetch pipeline *)

Lemma raw_slot_well_delimited s : raw_slot_ok s → well_delimited s.
Proof.
  intros [Hd _]. unfold well_delimited. unfold is_raw_date in Hd.
  pose proof (length_split_on "/" (fechaDisponible s)) as Hlen.
  destruct (split_on "/" (fechaDisponible s)) as [|a [|b [|c [|x l]]]];
    try done; simpl in Hlen; lia.
Qed.

Lemma remove_duplicates_raw l :
  Forall raw_slot_ok l →
  Forall raw_slot_ok (remove_duplicates l) ∧
  NoDup (slot_identity <$> remove_duplicates l).
Proof.
  intros Hraw. split.
  - rewrite Forall_forall in Hraw. apply Forall_forall. intros s Hs. apply Hraw.
    eapply elem_of_sublist; [exact Hs|].
    rewrite remove_duplicates_first_seen_key. apply first_seen_sublist.
  - rewrite remove_duplicates_first_seen_key.
    rewrite (first_seen_ext dedup_key slot_identity).
    + apply first_seen_NoDup.
    + intros a b Ha Hb. rewrite Forall_forall in Hraw.
      apply dedup_key_identity; by apply Hraw.
Qed.

Lemma extraction_body_spec world hist s :
  ∃ r new,
    run world hist (extraction_body s) = ((r, s), hist ++ new) ∧
    (∀ l, r = ok l →
       Forall raw_slot_ok l ∧ NoDup (slot_identity <$> l) ∧
       Exists (λ ev, extraction_answered ev = true) new).
Proof.
  unfold extraction_body. perform_step. await_step.
  set (h1 := hist ++ [Event (Sleep 2) _]).
  destruct (world h1 _ EvaluateSlotScript) as [e|d] eqn:He; cbn [fst snd].
  - eexists (inl e), [_; _]. unfold h1. rewrite <- !app_assoc.
    split; [reflexivity|]. intros l [=].
  - rewrite run_ret_m. eexists _, [_; _]. unfold h1. rewrite <- !app_assoc.
    split; [reflexivity|]. intros l [= <-].
    destruct (remove_duplicates_raw (extract_slots d)) as [Hraw Hnd].
    { eapply Forall_impl; [apply extract_slots_raw|]. by intros r [? _]. }
    split_and!; [done|done|]. by apply Exists_cons_tl, Exists_cons_hd.
Qed.

Lemma get_slots_by_region_spec
    (world : env) (hist : list event) (sess : session) (pid rid : string) :
  is_authenticated sess = true →
  ∃ raw_slots new,
    run world hist (get_slots_by_region pid rid sess) = ((ok raw_slots, sess), hist ++ new) ∧
    Forall raw_slot_ok raw_slots ∧
    NoDup (slot_identity <$> raw_slots) ∧
    (Forall (λ ev, extraction_answered ev = false) new → raw_slots = []).
Proof.
  intros Hauth. rewrite get_slots_by_region_unfold by done.
  destruct (select_procedure_spec pid world hist sess Hauth)
    as (b1 & new1 & Hrun1 & _ & _).
  rewrite run_bind_m, Hrun1. unfold ok at 1. cbn [fst snd].
  destruct b1; cbn [negb].
  2: { rewrite run_ret_m. exists [], new1. split_and!; [done|done|constructor|done]. }
  destruct (select_region_spec rid world (hist ++ new1) sess)
    as (b2 & new2 & Hrun2 & _ & _ & _).
  rewrite run_bind_m, Hrun2. unfold ok at 1. cbn [fst snd].
  destruct b2; cbn [negb].
  2: { rewrite run_ret_m. exists [], (new1 ++ new2). rewrite app_assoc.
       split_and!; [done|done|constructor|done]. }
  change (try_except _ _ sess)
    with (try_except extraction_body (λ _, ret_m (A:=list slot) []) sess).
  destruct (extraction_body_spec world ((hist ++ new1) ++ new2) sess)
    as (r & new3 & Hrun3 & Hr).
  rewrite run_try_except, Hrun3. cbn [fst snd].
  destruct r as [e|l]; cbn [fst snd].
  - rewrite run_ret_m. exists [], (new1 ++ new2 ++ new3). rewrite !app_assoc.
    split_and!; [done|done|constructor|done].
  - destruct (Hr l eq_refl) as (Hraw & Hnd & Hev).
    exists l, (new1 ++ new2 ++ new3). rewrite !app_assoc.
    split_and!; [done|done|done|].
    intros Hno. rewrite <- app_assoc in Hno.
    apply Forall_app in Hno as [_ [_ Hno]%Forall_app].
    apply Exists_exists in Hev as (ev & Hin & Hev).
    rewrite Forall_forall in Hno. apply Hno in Hin. congruence.
Qed.

(** X6: on an authenticated session [get_slots_by_region] never raises
    and leaves the session as it was: it returns a list.  The list is
    empty unless the extraction script was evaluated and answered; its
    records are raw slot records, no two of them with the same office
    name, ISO date and time. *)
Theorem get_slots_by_region_returns_raw_list
    (world : env) (hist : list event) (sess : session) (pid rid : string) :
  is_authenticated sess = true →
  ∃ raw_slots new,
    run world hist (get_slots_by_region pid rid sess) = ((ok raw_slots, sess), hist ++ new) ∧
    Forall raw_slot_ok raw_slots ∧
    NoDup (slot_identity <$> raw_slots) ∧
    (Forall (λ ev, extraction_answered ev = false) new → raw_slots = []).
Proof. apply get_slots_by_region_spec. Qed.

Lemma get_slots_by_region_returns_raw_list_witness :
  ∃ raw_slots new,
    run no_match_world [] (get_slots_by_region "6" "13" (Session true true))
    = ((ok raw_slots, Session true true), [] ++ new) ∧
    Forall raw_slot_ok raw_slots ∧
    NoDup (slot_identity <$> raw_slots) ∧
    (Forall (λ ev, extraction_answered ev = false) new → raw_slots = []).
Proof.
  apply (get_slots_by_region_returns_raw_list no_match_world [] (Session true true) "6" "13").
  reflexivity.
Defined.

(** ** The response of the handler *)

Lemma format_slot_datetime_iso_ok s :
  well_delimited s →
  ∃ iso_date,
    parse_slot_date (fechaDisponible s) = ok iso_date ∧
    format_slot_datetime_iso s = ok (iso_date +:+ "T" +:+ horaDisponible s +:+ ":00").
Proof.
  unfold well_delimited, format_slot_datetime_iso. intros Hc.
  destruct (parse_slot_date (fechaDisponible s)) as [e|iso] eqn:E; simpl; [|eauto].
  assert (raises (parse_slot_date (fechaDisponible s))) as Hr by (by exists e).
  apply parse_slot_date_raises in Hr. rewrite length_split_on in Hr. lia.
Qed.

Lemma map_to_slot_response l :
  Forall well_delimited l →
  ∃ rs, map_result to_slot_response l = ok rs ∧ Forall2 response_of l rs.
Proof.
  induction 1 as [|s l Hs _ (rs & Hrs & Hall)]; simpl.
  - by exists [].
  - destruct (format_slot_datetime_iso_ok s Hs) as (iso & _ & Hiso).
    unfold to_slot_response at 1. rewrite Hiso. simpl. rewrite Hrs. simpl.
    eexists. split; [reflexivity|]. constructor; [|done].
    unfold response_of. by rewrite Hiso.
Qed.

Lemma slot_list_response_spec
    (world : env) (hist : list event) (sess : session) (pid rid : string)
    (raw_slots : list slot) :
  Forall well_delimited raw_slots →
  ∃ resp sorted_slots,
    run world hist (slot_list_response pid rid raw_slots sess)
    = ((ok resp, sess), hist ++ [Event UtcNow (world hist _ UtcNow)]) ∧
    sort_slots_by_datetime raw_slots = ok sorted_slots ∧
    Forall2 response_of sorted_slots (slots resp) ∧
    count resp = length raw_slots ∧
    procedure_id resp = pid ∧ region_id resp = rid ∧
    scraped_at resp = world hist _ UtcNow.
Proof.
  intros Hwf.
  destruct (py_sorted_ok format_slot_datetime raw_slots) as (out & Hsort & Hperm & _).
  { eapply Forall_impl; [exact Hwf|]. apply format_slot_datetime_ok. }
  destruct (map_to_slot_response out) as (rs & Hrs & Hall).
  { by rewrite Hperm. }
  destruct raw_slots as [|s0 raw_slots].
  - apply Permutation_nil_r in Hperm as ->. simpl in Hrs. injection Hrs as <-.
    cbn [slot_list_response]. perform_step. rewrite run_ret_m.
    eexists _, []. split_and!; [reflexivity|done|done|done..].
  - cbn [slot_list_response]. fold (sort_slots_by_datetime (s0 :: raw_slots)) in Hsort.
    rewrite run_bind_m, run_lift, Hsort. unfold ok at 1. cbn [fst snd].
    rewrite run_bind_m, run_lift, Hrs. unfold ok at 1. cbn [fst snd].
    perform_step. rewrite run_ret_m.
    eexists _, out. split_and!; [reflexivity|done|done| |done..].
    cbn [count]. rewrite <- (Forall2_length _ _ _ Hall). by rewrite Hperm.
Qed.

(** X7: from records with well-delimited dates the handler builds its
    response without raising, after one reading of the clock: the entries
    are those of the records in sorted order, each with the date as
    scraped, the time as scraped and the date-time text built from them;
    the count is the number of records. *)
Theorem slot_list_response_of_records
    (world : env) (hist : list event) (sess : session) (pid rid : string)
    (raw_slots : list slot) :
  Forall well_delimited raw_slots →
  ∃ resp sorted_slots,
    run world hist (slot_list_response pid rid raw_slots sess)
    = ((ok resp, sess), hist ++ [Event UtcNow (world hist _ UtcNow)]) ∧
    sort_slots_by_datetime raw_slots = ok sorted_slots ∧
    Forall2 response_of sorted_slots (slots resp) ∧
    count resp = length raw_slots ∧
    procedure_id resp = pid ∧ region_id resp = rid ∧
    scraped_at resp = world hist _ UtcNow.
Proof. apply slot_list_response_spec. Qed.

Lemma slot_list_response_of_records_witness :
  ∃ resp sorted_slots,
    run fixture_world [] (slot_list_response "6" "13" test_slots (Session true true))
    = ((ok resp, Session true true), [] ++ [Event UtcNow (fixture_world [] _ UtcNow)]) ∧
    sort_slots_by_datetime test_slots = ok sorted_slots ∧
    Forall2 response_of sorted_slots (slots resp) ∧
    count resp = length test_slots ∧
    procedure_id resp = "6" ∧ region_id resp = "13" ∧
    scraped_at resp = fixture_world [] _ UtcNow.
Proof.
  apply (slot_list_response_of_records fixture_world [] (Session true true) "6" "13"
           test_slots).
  repeat (constructor; [reflexivity|]). constructor.
Defined.

(** ** The handler around the session *)

Lemma serve_spec config pid rid world hist s :
  has_page s = true →
  ∃ r s' new,
    run world hist (serve config pid rid s) = ((r, s'), hist ++ new) ∧
    ((r = raise login_failed ∧ s' = s) ∨
     (∃ resp, r = ok resp ∧ s' = Session true true ∧
              count resp = length (slots resp) ∧
              procedure_id resp = pid ∧ region_id resp = rid)).
Proof.
  intros Hpage.
  destruct (login_spec config world hist s Hpage) as (b & new1 & Hrun1).
  destruct b.
  2: { exists (raise login_failed), s, new1. split; [|by left].
       by apply serve_after_failed_login. }
  rewrite Hpage in Hrun1.
  unfold serve. rewrite run_bind_m, Hrun1. unfold ok at 1. cbn [fst snd negb].
  destruct (get_slots_by_region_spec world (hist ++ new1) (Session true true) pid rid eq_refl)
    as (raw & new2 & Hrun2 & Hraw & _ & _).
  rewrite run_bind_m, Hrun2. unfold ok at 1. cbn [fst snd].
  destruct (slot_list_response_spec world ((hist ++ new1) ++ new2) (Session true true)
              pid rid raw) as (resp & sorted & Hrun3 & Hsort & Hall & Hcount & Hp & Hr & _).
  { eapply Forall_impl; [exact Hraw|]. apply raw_slot_well_delimited. }
  rewrite Hrun3. eexists (ok resp), _, (new1 ++ new2 ++ [_]). rewrite !app_assoc.
  split; [reflexivity|]. right. exists resp. split_and!; try done.
  rewrite Hcount, <- (Forall2_length _ _ _ Hall).
  destruct (py_sorted_ok format_slot_datetime raw) as (out & Hsort' & Hperm & _).
  { eapply Forall_impl; [exact Hraw|]. intros x Hx.
    by apply format_slot_datetime_ok, raw_slot_well_delimited. }
  unfold sort_slots_by_datetime in Hsort. rewrite Hsort in Hsort'.
  injection Hsort' as <-. by rewrite Hperm.
Qed.

(** X8: with the browser started, the work of the handler (login, fetch,
    response) raises nothing but the 503 of a failed login: whatever the
    portal answers, it ends either with that error and the session
    untouched, or with a response whose count is the number of its
    entries, for the procedure and region asked. *)
Theorem serve_fails_only_with_503
    (world : env) (hist : list event) (config : SRCEIConfig) (sess : session)
    (pid rid : string) :
  has_page sess = true →
  ∃ r sess' new,
    run world hist (serve config pid rid sess) = ((r, sess'), hist ++ new) ∧
    ((r = raise login_failed ∧ sess' = sess) ∨
     (∃ resp, r = ok resp ∧ sess' = Session true true ∧
              count resp = length (slots resp) ∧
              procedure_id resp = pid ∧ region_id resp = rid)).
Proof. apply serve_spec. Qed.

Lemma serve_fails_only_with_503_witness :
  ∃ r sess' new,
    run fixture_world [] (serve test_config "6" "13" (Session true false))
    = ((r, sess'), [] ++ new) ∧
    ((r = raise login_failed ∧ sess' = Session true false) ∨
     (∃ resp, r = ok resp ∧ sess' = Session true true ∧
              count resp = length (slots resp) ∧
              procedure_id resp = "6" ∧ region_id resp = "13")).
Proof.
  apply (serve_fails_only_with_503 fixture_world [] test_config (Session true false) "6" "13").
  reflexivity.
Defined.

Lemma run_set_page world hist b s :
  run world hist (set_page b s) = ((inr (), Session b (is_authenticated s)), hist).
Proof. reflexivity. Qed.

Lemma start_browser_spec (world : env) hist s :
  run world hist (start_browser s)
  = ((inr (), Session true (is_authenticated s)), hist ++ answered start_calls) ∨
  ∃ k e, k < 5 ∧
    run world hist (start_browser s)
    = ((inl e, if decide (k = 4) then Session true (is_authenticated s) else s),
       hist ++ stopped start_calls k e).
Proof.
  unfold start_browser.
  await_step. destruct (world hist _ StartPlaywright) as [e|[]] eqn:H1; cbn [fst snd].
  { right. exists 0, e. split; [lia|reflexivity]. }
  await_step. destruct (world _ _ Launch) as [e|[]] eqn:H2; cbn [fst snd].
  { right. exists 1, e. split; [lia|]. rewrite <- !app_assoc. reflexivity. }
  await_step. destruct (world _ _ NewContext) as [e|[]] eqn:H3; cbn [fst snd].
  { right. exists 2, e. split; [lia|]. rewrite <- !app_assoc. reflexivity. }
  await_step. destruct (world _ _ NewPage) as [e|[]] eqn:H4; cbn [fst snd].
  { right. exists 3, e. split; [lia|]. rewrite <- !app_assoc. reflexivity. }
  rewrite run_bind_m, run_set_page. cbn [fst snd]. rewrite run_await.
  destruct (world _ _ AddInitScript) as [e|[]] eqn:H5.
  - right. exists 4, e. split; [lia|]. rewrite <- !app_assoc. reflexivity.
  - left. rewrite <- !app_assoc. reflexivity.
Qed.

Lemma close_spec (world : env) hist s :
  has_page s = true →
  run world hist (close s) = ((inr (), s), hist ++ answered close_calls) ∨
  ∃ k e, k < 4 ∧
    run world hist (close s) = ((inl e, s), hist ++ stopped close_calls k e).
Proof.
  intros Hpage.
  assert (close s
          = (await ClosePage;;; await CloseContext;;; await CloseBrowser;;;
             await StopPlaywright) s) as ->.
  { unfold close. unfold bind_m at 1. unfold get_session.
    cbn [pbind]. unfold ok at 1. cbn [fst snd]. by rewrite Hpage. }
  await_step. destruct (world hist _ ClosePage) as [e|[]] eqn:H1; cbn [fst snd].
  { right. exists 0, e. split; [lia|reflexivity]. }
  await_step. destruct (world _ _ CloseContext) as [e|[]] eqn:H2; cbn [fst snd].
  { right. exists 1, e. split; [lia|]. rewrite <- !app_assoc. reflexivity. }
  await_step. destruct (world _ _ CloseBrowser) as [e|[]] eqn:H3; cbn [fst snd].
  { right. exists 2, e. split; [lia|]. rewrite <- !app_assoc. reflexivity. }
  rewrite run_await.
  destruct (world _ _ StopPlaywright) as [e|[]] eqn:H4.
  - right. exists 3, e. split; [lia|]. rewrite <- !app_assoc. reflexivity.
  - left. rewrite <- !app_assoc. reflexivity.
Qed.

(** X9: the client as a context manager around the work of the handler.
    When one of the five calls of the start raises, the exception leaves
    the block after that call: the body does not run and nothing is
    closed, whatever had been started.  When the start completes, the body
    runs on a client with a page and ends with the 503 of a failed login or
    with a response; then the page, the context, the browser and the engine
    are closed, in this order.  If all four close, the block ends as the
    body did; the first of them that raises ends the closing, and its
    exception takes the place of the result of the body. *)
Theorem async_with_closes_client
    (world : env) (hist : list event) (config : SRCEIConfig) (sess : session)
    (pid rid : string) :
  (∃ k e, k < 5 ∧
     run world hist (async_with (serve config pid rid) sess)
     = ((raise e, if decide (k = 4) then Session true (is_authenticated sess) else sess),
        hist ++ stopped start_calls k e)) ∨
  (∃ r sess' mid,
     run world (hist ++ answered start_calls)
       (serve config pid rid (Session true (is_authenticated sess)))
     = ((r, sess'), (hist ++ answered start_calls) ++ mid) ∧
     (r = raise login_failed ∨
      ∃ resp, r = ok resp ∧ count resp = length (slots resp)) ∧
     (run world hist (async_with (serve config pid rid) sess)
      = ((r, sess'), hist ++ answered start_calls ++ mid ++ answered close_calls) ∨
      ∃ k e, k < 4 ∧
        run world hist (async_with (serve config pid rid) sess)
        = ((raise e, sess'),
           hist ++ answered start_calls ++ mid ++ stopped close_calls k e))).
Proof.
  unfold async_with. rewrite run_bind_m.
  destruct (start_browser_spec world hist sess) as [Hs|(k & e & Hk & Hs)];
    rewrite Hs; cbn [fst snd].
  2: { left. by exists k, e. }
  right. rewrite run_pbind.
  destruct (serve_spec config pid rid world (hist ++ answered start_calls)
              (Session true (is_authenticated sess)) eq_refl)
    as (r & s' & mid & Hrun & Hr).
  exists r, s', mid. rewrite Hrun. cbn [fst snd].
  assert (has_page s' = true) as Hpage.
  { by destruct Hr as [[_ ->]|(resp & _ & -> & _)]. }
  split_and!; [done| |].
  { destruct Hr as [[-> _]|(resp & -> & _ & Hc & _)]; [by left|right; by exists resp]. }
  rewrite run_pbind.
  destruct (close_spec world ((hist ++ answered start_calls) ++ mid) s' Hpage)
    as [Hc|(k & e & Hk & Hc)]; rewrite Hc; cbn [run fst snd].
  - left. by rewrite <- !app_assoc.
  - right. exists k, e. split; [done|]. by rewrite <- !app_assoc.
Qed.

(** X10: an identifier without "-" is rejected when the configuration is
    built: the handler answers with status 500 from the validation error
    and makes no call at all, the browser is never started. *)
Theorem get_slots_rejects_rut_without_dash
    (world : env) (hist : list event) (pid rid srcei_rut srcei_password : string) :
  contains "-" srcei_rut = false →
  run world hist (get_slots pid rid srcei_rut srcei_password)
  = (Raised 500 "Internal server error: " (Some ValidationError), hist).
Proof.
  intros Hrut. unfold get_slots, make_config. by rewrite Hrut.
Qed.

Lemma get_slots_rejects_rut_without_dash_witness :
  run fixture_world [] (get_slots "6" "13" "123456789" "secret")
  = (Raised 500 "Internal server error: " (Some ValidationError), []).
Proof.
  apply (get_slots_rejects_rut_without_dash fixture_world [] "6" "13" "123456789" "secret").
  reflexivity.
Defined.

(** X11: [login] on a client without a page starts the browser first, and
    outside its [try]: when one of the five calls of the start raises,
    [login] raises that exception instead of returning [False], and makes
    no further call; the client is left with a page exactly when the call
    that raised is the last one, the init script, since the page is
    assigned before it.  When the start completes, [login] goes on as on a
    client with a page. *)
Theorem login_starts_browser_outside_try
    (world : env) (hist : list event) (config : SRCEIConfig) (sess : session) :
  has_page sess = false →
  (∃ k e, k < 5 ∧
     run world hist (login config sess)
     = ((raise e, if decide (k = 4) then Session true (is_authenticated sess) else sess),
        hist ++ stopped start_calls k e)) ∨
  run world hist (login config sess)
  = run world (hist ++ answered start_calls)
      (login config (Session true (is_authenticated sess))).
Proof.
  intros Hpage.
  assert (login config sess
          = (start_browser;;; try_except (login_body config) (λ _, ret_m false)) sess)
    as Hunfold.
  { unfold login. unfold bind_m at 1. unfold get_session.
    cbn [pbind]. unfold ok at 1. cbn [fst snd]. by rewrite Hpage. }
  rewrite Hunfold, run_bind_m.
  destruct (start_browser_spec world hist sess) as [Hs|(k & e & Hk & Hs)];
    rewrite Hs; cbn [fst snd].
  - right. by rewrite (login_unfold config (Session true (is_authenticated sess))).
  - left. by exists k, e.
Qed.

Lemma login_starts_browser_outside_try_witness :
  (∃ k e, k < 5 ∧
     run no_init_script_world [] (login test_config (Session false false))
     = ((raise e, if decide (k = 4) then Session true false else Session false false),
        [] ++ stopped start_calls k e)) ∨
  run no_init_script_world [] (login test_config (Session false false))
  = run no_init_script_world ([] ++ answered start_calls)
      (login test_config (Session true false)).
Proof.
  apply (login_starts_browser_outside_try no_init_script_world [] test_config
           (Session false false)).
  reflexivity.
Defined.


(** ** String order and time order *)

Lemma digit_char_compare n1 n2 :
  n1 < 10 → n2 < 10 →
  Ascii.compare (digit_char n1) (digit_char n2) = Nat.compare n1 n2.
Proof.
  intros H1 H2.
  do 10 (destruct n1 as [|n1];
         [do 10 (destruct n2 as [|n2]; [reflexivity|]); lia|]).
  lia.
Qed.

Lemma digit_compare a b :
  is_digit a = true → is_digit b = true →
  Ascii.compare a b = Nat.compare (digit_value a) (digit_value b).
Proof.
  intros (n1 & H1 & -> & ->)%is_digit_char (n2 & H2 & -> & ->)%is_digit_char.
  by apply digit_char_compare.
Qed.

Lemma read_digits_cons n c s :
  read_digits n (String c s) = read_digits (10 * n + digit_value c) s.
Proof. reflexivity. Qed.

Lemma read_digits_shift n s :
  read_digits n s = n * 10 ^ String.length s + read_digits 0 s.
Proof.
  revert n. induction s as [|c s IH]; intros n.
  - cbn. lia.
  - rewrite !read_digits_cons, (IH (10 * n + _)), (IH (10 * 0 + _)).
    cbn [String.length]. rewrite Nat.pow_succ_r'. lia.
Qed.

Lemma read_digits_bound s :
  all_chars is_digit s = true → read_digits 0 s < 10 ^ String.length s.
Proof.
  induction s as [|c s IH]; [cbn; lia|].
  cbn [all_chars]. intros [Hc Hs]%andb_true_iff.
  apply is_digit_char in Hc as (d & Hd & _ & Hv).
  rewrite read_digits_cons, read_digits_shift, Hv.
  cbn [String.length]. rewrite Nat.pow_succ_r'. specialize (IH Hs). nia.
Qed.

Lemma parseInt_read s : parseInt s = read_digits 0 s.
Proof. reflexivity. Qed.

(** On digit texts of one length the order of the texts is the order of
    the numbers. *)
Lemma compare_digit_texts x y :
  all_chars is_digit x = true → all_chars is_digit y = true →
  String.length x = String.length y →
  String.compare x y = Nat.compare (parseInt x) (parseInt y).
Proof.
  rewrite (parseInt_read x), (parseInt_read y). revert y.
  induction x as [|a x IH]; intros [|b y]; try done.
  cbn [all_chars String.length].
  intros [Ha Hx]%andb_true_iff [Hb Hy]%andb_true_iff [= Hlen].
  rewrite !read_digits_cons, (read_digits_shift (_ + _) x), (read_digits_shift (_ + _) y).
  cbn [String.compare]. rewrite (digit_compare a b) by done.
  pose proof (read_digits_bound x Hx) as Bx.
  pose proof (read_digits_bound y Hy) as By.
  rewrite (IH y Hx Hy Hlen), <- Hlen in *.
  set (P := 10 ^ String.length x) in *.
  set (vx := read_digits 0 x) in *. set (vy := read_digits 0 y) in *.
  set (da := digit_value a). set (db := digit_value b).
  destruct (Nat.compare_spec da db) as [Heq|Hlt|Hgt].
  - rewrite Heq.
    destruct (Nat.compare_spec vx vy); symmetry;
      [apply Nat.compare_eq_iff|apply Nat.compare_lt_iff|apply Nat.compare_gt_iff]; nia.
  - symmetry. apply Nat.compare_lt_iff. nia.
  - symmetry. apply Nat.compare_gt_iff. nia.
Qed.

Lemma compare_app x1 x2 s1 s2 :
  String.length x1 = String.length x2 →
  String.compare (x1 +:+ s1) (x2 +:+ s2)
  = match String.compare x1 x2 with
    | Eq => String.compare s1 s2
    | c => c
    end.
Proof.
  revert x2. induction x1 as [|a x1 IH]; intros [|b x2]; try done.
  intros [= Hlen].
  change (String.compare (String a (x1 +:+ s1)) (String b (x2 +:+ s2))
          = match String.compare (String a x1) (String b x2) with
            | Eq => String.compare s1 s2
            | c => c
            end).
  cbn [String.compare]. rewrite (IH x2 Hlen).
  by destruct (Ascii.compare a b).
Qed.

Lemma compare_app_sep c x1 x2 s1 s2 :
  String.length x1 = String.length x2 →
  String.compare (x1 +:+ String c s1) (x2 +:+ String c s2)
  = match String.compare x1 x2 with
    | Eq => String.compare s1 s2
    | r => r
    end.
Proof.
  intros Hlen. rewrite compare_app by done. cbn [String.compare].
  unfold Ascii.compare. by rewrite N.compare_refl.
Qed.

Lemma all_chars_app p a b : all_chars p (a +:+ b) = all_chars p a && all_chars p b.
Proof.
  induction a as [|c a IH]; [done|].
  change (p c && all_chars p (a +:+ b) = p c && all_chars p a && all_chars p b).
  rewrite IH. by destruct (p c).
Qed.

Lemma string_length_app a b :
  String.length (a +:+ b) = String.length a + String.length b.
Proof.
  induction a as [|c a IH]; [done|].
  change (S (String.length (a +:+ b)) = S (String.length a + String.length b)).
  by rewrite IH.
Qed.

Lemma is_full_date_shape d :
  is_full_date d = true →
  ∃ dd mm yy,
    split_on "/" d = [dd; mm; yy] ∧
    (String.length dd = 2 ∧ all_chars is_digit dd = true) ∧
    (String.length mm = 2 ∧ all_chars is_digit mm = true) ∧
    (String.length yy = 4 ∧ all_chars is_digit yy = true).
Proof.
  unfold is_full_date.
  destruct (split_on "/" d) as [|dd [|mm [|yy [|x l]]]]; try done.
  rewrite !andb_true_iff, !Nat.eqb_eq. intros [[[[[? ?] ?] ?] ?] ?].
  by exists dd, mm, yy.
Qed.

Lemma is_full_time_shape t :
  is_full_time t = true →
  ∃ hh mi,
    split_on ":" t = [hh; mi] ∧
    (String.length hh = 2 ∧ all_chars is_digit hh = true) ∧
    (String.length mi = 2 ∧ all_chars is_digit mi = true).
Proof.
  unfold is_full_time. pose proof (join_split_on ":" t) as Hj.
  destruct (split_on ":" t) as [|hh [|mi [|x l]]]; try done.
  rewrite !andb_true_iff, !Nat.eqb_eq. intros [[[? ?] ?] ?].
  by exists hh, mi.
Qed.

(** The sort key and the digits of the moment of a record at full width. *)
Lemma full_width_key s :
  full_width s →
  ∃ yy mm dd hh mi,
    format_slot_datetime s
    = ok (yy +:+ String "-" (mm +:+ String "-" (dd +:+ String " " (hh +:+ String ":" mi)))) ∧
    stamp_digits s = yy +:+ mm +:+ dd +:+ hh +:+ mi ∧
    (String.length yy = 4 ∧ all_chars is_digit yy = true) ∧
    (String.length mm = 2 ∧ all_chars is_digit mm = true) ∧
    (String.length dd = 2 ∧ all_chars is_digit dd = true) ∧
    (String.length hh = 2 ∧ all_chars is_digit hh = true) ∧
    (String.length mi = 2 ∧ all_chars is_digit mi = true).
Proof.
  intros [Hd Ht].
  destruct (is_full_date_shape _ Hd) as (dd & mm & yy & Hsd & Hdd & Hmm & Hy).
  destruct (is_full_time_shape _ Ht) as (hh & mi & Hst & Hh & Hm).
  exists yy, mm, dd, hh, mi. split_and!; try tauto.
  - destruct Hdd as [Hdl Hdd], Hmm as [Hml Hmm].
    unfold format_slot_datetime, parse_slot_date. rewrite Hsd. cbn [rbind ok].
    rewrite !zfill_long by (done || lia).
    pose proof (join_split_on ":" (horaDisponible s)) as Hj. rewrite Hst in Hj.
    rewrite <- Hj. cbn [join_with].
    change (?a +:+ "-" +:+ ?b +:+ "-" +:+ ?c)
      with (a +:+ String "-" (b +:+ String "-" c)).
    change (?x +:+ " " +:+ ?t) with (x +:+ String " " t).
    rewrite string_app_assoc.
    change (String "-" ?x +:+ ?t) with (String "-" (x +:+ t)).
    rewrite string_app_assoc.
    by change (String "-" dd +:+ ?t) with (String "-" (dd +:+ t)).
  - unfold stamp_digits. by rewrite Hsd, Hst.
Qed.

Lemma full_width_compare a b ka kb :
  full_width a → full_width b →
  format_slot_datetime a = ok ka → format_slot_datetime b = ok kb →
  String.compare ka kb = Nat.compare (stamp a) (stamp b).
Proof.
  intros (y1 & m1 & d1 & h1 & i1 & Hk1 & Hs1 & [? ?] & [? ?] & [? ?] & [? ?] & [? ?])%full_width_key.
  intros (y2 & m2 & d2 & h2 & i2 & Hk2 & Hs2 & [? ?] & [? ?] & [? ?] & [? ?] & [? ?])%full_width_key.
  rewrite Hk1, Hk2. intros [= <-] [= <-]. unfold stamp. rewrite Hs1, Hs2.
  rewrite <- compare_digit_texts.
  - rewrite !compare_app_sep, !compare_app by congruence. done.
  - rewrite !all_chars_app. by repeat (apply andb_true_iff; split).
  - rewrite !all_chars_app. by repeat (apply andb_true_iff; split).
  - rewrite !string_length_app. congruence.
Qed.

Lemma full_width_le a b :
  full_width a → full_width b → datetime_le a b ↔ stamp a ≤ stamp b.
Proof.
  intros Ha Hb.
  destruct (full_width_key a Ha) as (? & ? & ? & ? & ? & Hka & _).
  destruct (full_width_key b Hb) as (? & ? & ? & ? & ? & Hkb & _).
  pose proof (full_width_compare a b _ _ Ha Hb Hka Hkb) as Hc.
  unfold datetime_le. rewrite Hka, Hkb. split.
  - intros (ka & kb & [= <-] & [= <-] & Hle).
    unfold String.le, String.leb in Hle. rewrite Hc in Hle.
    destruct (Nat.compare_spec (stamp a) (stamp b)); [lia|lia|done].
  - intros Hle. eexists _, _. split_and!; [done|done|].
    unfold String.le, String.leb. rewrite Hc.
    destruct (Nat.compare_spec (stamp a) (stamp b)); [done|done|lia].
Qed.

(** X12: at full width (date DD/MM/YYYY with a four-digit year, time HH:MM
    with a two-digit hour) the order of the sort keys is the order of the
    moments YYYYMMDDHHMM, and [sort_slots_by_datetime] returns the records
    earliest first. *)
Theorem sort_is_chronological_at_full_width :
  (∀ a b : slot, full_width a → full_width b →
     datetime_le a b ↔ stamp a ≤ stamp b) ∧
  (∀ slots : list slot,
     Forall full_width slots →
     ∃ out, sort_slots_by_datetime slots = ok out ∧
       out ≡ₚ slots ∧
       StronglySorted (λ a b, stamp a ≤ stamp b) out).
Proof.
  split; [apply full_width_le|].
  intros slots Hfull.
  destruct (py_sorted_ok format_slot_datetime slots) as (out & Hsort & Hperm & Hsorted & _).
  { eapply Forall_impl; [exact Hfull|]. intros s Hs.
    destruct (full_width_key s Hs) as (? & ? & ? & ? & ? & Hk & _). eauto. }
  exists out. split_and!; [done|done|].
  eapply (StronglySorted_transfer _ _ full_width); [|by rewrite Hperm|exact Hsorted].
  intros a b Ha Hb Hle. by apply full_width_le.
Qed.

Lemma sort_is_chronological_at_full_width_witness :
  ∃ out, sort_slots_by_datetime test_slots = ok out ∧
    out ≡ₚ test_slots ∧
    StronglySorted (λ a b, stamp a ≤ stamp b) out.
Proof.
  apply (proj2 sort_is_chronological_at_full_width test_slots).
  repeat (constructor; [split; reflexivity|]). constructor.
Defined.

Lemma string_compare_refl s : String.compare s s = Eq.
Proof.
  induction s as [|c s IH]; [done|].
  cbn [String.compare]. unfold Ascii.compare. by rewrite N.compare_refl.
Qed.

(** X13: the hour is compared as text.  Of two records of one day, one at
    an hour written with a single digit from 2 to 9 and one at an hour
    that starts with the digit 1, the sort puts the second first: 10:00
    comes before 9:30. *)
Theorem one_digit_hour_sorts_last (a b : slot) (h : ascii) (ta tb : string) :
  well_delimited a →
  fechaDisponible b = fechaDisponible a →
  horaDisponible a = String h ta →
  is_digit h = true → 2 ≤ digit_value h →
  horaDisponible b = String "1" tb →
  sort_slots_by_datetime [a; b] = ok [b; a].
Proof.
  intros Hwf Hdate Ha Hh Hv Hb.
  destruct (format_slot_datetime_ok a Hwf) as [ka Hka].
  unfold sort_slots_by_datetime, py_sorted. cbn [keyed].
  unfold format_slot_datetime in *. rewrite Hdate, Hb.
  destruct (parse_slot_date (fechaDisponible a)) as [e|iso]; [done|].
  rewrite Ha. cbn [rbind ok sort_keyed insert_by_key fst snd].
  assert (String.leb (iso +:+ " " +:+ String h ta) (iso +:+ " " +:+ String "1" tb) = false)
    as ->; [|done].
  unfold String.leb.
  change (iso +:+ " " +:+ ?t) with (iso +:+ String " " t).
  rewrite compare_app_sep, string_compare_refl by done.
  cbn [String.compare].
  apply is_digit_char in Hh as (n & Hn & -> & Hd). rewrite Hd in Hv.
  change "1"%char with (digit_char 1).
  rewrite digit_char_compare by lia.
  by destruct (Nat.compare_spec n 1); [lia|lia|].
Qed.

Lemma one_digit_hour_sorts_last_witness :
  sort_slots_by_datetime morning_slots
  = ok [Slot "B" "" "29/01/2026" "10:00" ""; Slot "A" "" "29/01/2026" "9:30" ""].
Proof.
  apply (one_digit_hour_sorts_last
           (Slot "A" "" "29/01/2026" "9:30" "") (Slot "B" "" "29/01/2026" "10:00" "")
           "9" ":30" "0:00"); try reflexivity.
  cbn. lia.
Defined.

(** ** A login that goes through *)

Lemma login_body_true config world hist s :
  ∃ r new,
    run world hist (login_body config s) = (r, hist ++ new) ∧
    (r.1 = ok true →
     r.2 = Session (has_page s) true ∧
     ∃ first_title url later_title,
       new = login_calls config first_title url later_title ∧
       contains "Request Rejected" first_title = false ∧
       contains "seleccion" (lower url) || contains "Reserva de Hora" later_title = true).
Proof.
  unfold login_body.
  await_step. destruct (world hist _ (Goto _ _)) as [e|[]] eqn:H1; cbn [fst snd].
  { eexists _, [_]. split; [reflexivity|]. intros [=]. }
  perform_step. destruct (world _ _ (Sleep 1)).
  await_step. set (h2 := (hist ++ [_]) ++ [_]).
  destruct (world h2 _ Title) as [e|title] eqn:H2; cbn [fst snd].
  { eexists _, [_; _; _]. unfold h2. rewrite <- !app_assoc.
    split; [reflexivity|]. intros [=]. }
  destruct (contains "Request Rejected" title) eqn:Hblock.
  { rewrite run_ret_m. eexists _, [_; _; _]. unfold h2. rewrite <- !app_assoc.
    split; [reflexivity|]. intros [=]. }
  await_step. set (h3 := h2 ++ [_]).
  destruct (world h3 _ (WaitForSelector _ _)) as [e|[]] eqn:H3; cbn [fst snd].
  { eexists _, [_; _; _; _]. unfold h3, h2. rewrite <- !app_assoc.
    split; [reflexivity|]. intros [=]. }
  await_step. set (h4 := h3 ++ [_]).
  destruct (world h4 _ (Fill _ (rut config))) as [e|[]] eqn:H4; cbn [fst snd].
  { eexists _, [_; _; _; _; _]. unfold h4, h3, h2. rewrite <- !app_assoc.
    split; [reflexivity|]. intros [=]. }
  await_step. set (h5 := h4 ++ [_]).
  destruct (world h5 _ (Fill _ (password config))) as [e|[]] eqn:H5; cbn [fst snd].
  { eexists _, [_; _; _; _; _; _]. unfold h5, h4, h3, h2. rewrite <- !app_assoc.
    split; [reflexivity|]. intros [=]. }
  await_step. set (h6 := h5 ++ [_]).
  destruct (world h6 _ (Click _ None)) as [e|[]] eqn:H6; cbn [fst snd].
  { eexists _, [_; _; _; _; _; _; _]. unfold h6, h5, h4, h3, h2. rewrite <- !app_assoc.
    split; [reflexivity|]. intros [=]. }
  await_step. set (h7 := h6 ++ [_]).
  destruct (world h7 _ (WaitForLoadState _)) as [e|[]] eqn:H7; cbn [fst snd].
  { eexists _, [_; _; _; _; _; _; _; _]. unfold h7, h6, h5, h4, h3, h2.
    rewrite <- !app_assoc. split; [reflexivity|]. intros [=]. }
  perform_step. destruct (world _ _ (Sleep 2)).
  perform_step. set (url := world _ _ CurrentUrl).
  await_step. set (h10 := ((h7 ++ [_]) ++ [_]) ++ [_]).
  destruct (world h10 _ Title) as [e|title2] eqn:H8; cbn [fst snd].
  { eexists _, [_; _; _; _; _; _; _; _; _; _; _].
    unfold h10, h7, h6, h5, h4, h3, h2.
    rewrite <- !app_assoc. split; [reflexivity|]. intros [=]. }
  destruct (_ || _) eqn:Hmark.
  - rewrite run_bind_m. unfold set_authenticated at 1. cbn [run fst snd].
    rewrite run_ret_m.
    eexists _, [_; _; _; _; _; _; _; _; _; _; _].
    unfold h10, h7, h6, h5, h4, h3, h2.
    rewrite <- !app_assoc. split; [reflexivity|]. intros _. split; [done|].
    exists title, url, title2. split_and!; [|done|exact Hmark].
    reflexivity.
  - rewrite run_ret_m.
    eexists _, [_; _; _; _; _; _; _; _; _; _; _].
    unfold h10, h7, h6, h5, h4, h3, h2.
    rewrite <- !app_assoc. split; [reflexivity|]. intros [=].
Qed.

(** X14: what a [True] of [login] means.  On a client with a page, [login]
    returns [True] only after exactly the eleven calls of the form being
    filled with the configured identifier and secret and submitted, none
    of which raised, with a first title that is not the block page and a
    final address holding "seleccion" (in any letter case) or a final title
    holding "Reserva de Hora"; the session is then authenticated. *)
Theorem login_true_means_markers
    (world : env) (hist hist' : list event) (config : SRCEIConfig) (sess sess' : session) :
  has_page sess = true →
  run world hist (login config sess) = ((ok true, sess'), hist') →
  sess' = Session true true ∧
  ∃ first_title url later_title,
    hist' = hist ++ login_calls config first_title url later_title ∧
    contains "Request Rejected" first_title = false ∧
    contains "seleccion" (lower url) || contains "Reserva de Hora" later_title = true.
Proof.
  intros Hpage. rewrite login_unfold by done.
  destruct (login_body_true config world hist sess) as ([r s1] & new & Hrun & Htrue).
  rewrite run_try_except, Hrun. cbn [fst snd] in *.
  destruct r as [e|[|]]; cbn [fst snd].
  - rewrite run_ret_m. intros [=].
  - intros [= <- <-]. destruct (Htrue eq_refl) as (-> & t1 & url & t2 & -> & Hb & Hm).
    rewrite Hpage. split; [done|]. by exists t1, url, t2.
  - intros [=].
Qed.

Lemma login_true_means_markers_witness :
  ∃ first_title url later_title,
    (run fixture_world [] (login test_config (Session true false))).2
    = [] ++ login_calls test_config first_title url later_title ∧
    contains "Request Rejected" first_title = false ∧
    contains "seleccion" (lower url) || contains "Reserva de Hora" later_title = true.
Proof.
  apply (login_true_means_markers fixture_world []
           (run fixture_world [] (login test_config (Session true false))).2
           test_config (Session true false) (Session true true)); reflexivity.
Defined.

(** ** The first match wins *)

Section stops_after.
Context (hit attempt : event → bool).

Lemma stops_after_miss l1 l2 :
  Forall (λ ev, hit ev = false) l1 →
  stops_after hit attempt (l1 ++ l2) = stops_after hit attempt l2.
Proof.
  induction 1 as [|ev l1 Hev _ IH]; [done|].
  cbn [app stops_after]. by rewrite Hev.
Qed.

Lemma stops_after_calm l1 l2 :
  stops_after hit attempt l1 = true →
  forallb (λ e, negb (attempt e)) l2 = true →
  stops_after hit attempt (l1 ++ l2) = true.
Proof.
  intros H1 H2. induction l1 as [|ev l1 IH]; cbn [app stops_after] in *.
  - destruct l2 as [|ev l2]; [done|]. cbn [stops_after forallb] in *.
    apply andb_true_iff in H2 as [_ H2].
    destruct (hit ev); [done|].
    clear -H2. induction l2 as [|e l2 IH]; [done|].
    cbn [stops_after forallb] in *. apply andb_true_iff in H2 as [_ H2].
    destruct (hit e); auto.
  - destruct (hit ev); [|auto].
    rewrite forallb_app. by rewrite H1, H2.
Qed.
End stops_after.

Lemma click_first_stops selectors world hist s :
  ∃ b new,
    run world hist (click_first selectors s) = ((ok b, s), hist ++ new) ∧
    stops_after click_succeeded selection_attempt new = true ∧
    (b = false → no_click new).
Proof.
  revert hist. induction selectors as [|selector rest IH]; intros hist.
  - exists false, []. rewrite app_nil_r. split_and!; [done|done|constructor].
  - cbn [click_first]. rewrite run_try_except, run_bind_m, run_await. cbn [fst snd].
    destruct (world hist _ (Click selector (Some 3000%N))) as [e|[]] eqn:Hc;
      cbn [fst snd].
    + destruct (IH (hist ++ [Event (Click selector (Some 3000%N)) (inl e)]))
        as (b & new & Hrun & Hstop & Hno).
      exists b, (Event (Click selector (Some 3000%N)) (inl e) :: new).
      rewrite Hrun, <- app_assoc. split_and!; [done|done|].
      intros Hb. constructor; [done|by apply Hno].
    + rewrite run_ret_m. cbn [fst snd].
      exists true, [Event (Click selector (Some 3000%N)) (inr ())].
      split_and!; [done|done|done].
Qed.

Lemma click_button_by_text_stops name buttons world hist s :
  ∃ r new,
    run world hist (click_button_by_text name buttons s) = ((r, s), hist ++ new) ∧
    stops_after click_succeeded selection_attempt new = true.
Proof.
  revert hist. induction buttons as [|btn rest IH]; intros hist.
  - exists (ok false), []. by rewrite app_nil_r.
  - cbn [click_button_by_text]. rewrite run_bind_m, run_await. cbn [fst snd].
    destruct (world hist _ (InnerText btn)) as [e|text] eqn:Ht; cbn [fst snd].
    { by exists (inl e), [Event (InnerText btn) (inl e)]. }
    rewrite run_bind_m, run_lift. cbn [fst snd].
    destruct (split_ws name) as [|first_word ws]; unfold ok, raise; cbn [fst snd].
    { by exists (inl IndexError), [Event (InnerText btn) (inr text)]. }
    destruct (contains first_word text); cbn [fst snd].
    + rewrite run_bind_m, run_await. cbn [fst snd].
      destruct (world _ _ (ClickHandle btn)) as [e|[]] eqn:Hc; cbn [fst snd].
      * exists (inl e), [Event (InnerText btn) (inr text); Event (ClickHandle btn) (inl e)].
        by rewrite <- app_assoc.
      * exists (inr true), [Event (InnerText btn) (inr text); Event (ClickHandle btn) (inr ())].
        by rewrite <- app_assoc.
    + destruct (IH (hist ++ [Event (InnerText btn) (inr text)])) as (r & new & Hrun & Hstop).
      exists r, (Event (InnerText btn) (inr text) :: new).
      by rewrite Hrun, <- app_assoc.
Qed.

Lemma settle_calm world hist s :
  ∃ r new,
    run world hist
      ((await (WaitForLoadState "networkidle");;; perform (Sleep 1);;; ret_m true) s)
    = ((r, s), hist ++ new) ∧
    forallb (λ e, negb (selection_attempt e)) new = true.
Proof.
  rewrite run_bind_m, run_await. cbn [fst snd].
  destruct (world hist _ (WaitForLoadState "networkidle")) as [e|[]] eqn:Hw; cbn [fst snd].
  - by exists (inl e), [Event (WaitForLoadState "networkidle") (inl e)].
  - rewrite run_bind_m, run_perform. cbn [fst snd]. rewrite run_ret_m.
    eexists _, [Event (WaitForLoadState "networkidle") (inr ()); Event (Sleep 1) _].
    by rewrite <- app_assoc.
Qed.

Lemma select_procedure_body_stops name world hist s :
  ∃ r new,
    run world hist (select_procedure_body name s) = ((r, s), hist ++ new) ∧
    stops_after click_succeeded selection_attempt new = true.
Proof.
  unfold select_procedure_body.
  destruct (click_first_stops (procedure_selectors name) world hist s)
    as (b & new1 & Hrun1 & Hs1 & Hn1).
  rewrite run_bind_m, Hrun1. unfold ok. cbn [fst snd].
  destruct b; cbn [negb].
  - rewrite run_bind_m, run_ret_m. cbn [fst snd].
    destruct (settle_calm world (hist ++ new1) s) as (r & new2 & Hrun2 & Hc2).
    exists r, (new1 ++ new2). rewrite Hrun2, <- app_assoc.
    split; [done|]. by apply stops_after_calm.
  - specialize (Hn1 eq_refl).
    rewrite !run_bind_m, run_await. cbn [fst snd].
    destruct (world (hist ++ new1) _ (QuerySelectorAll "button.btn"))
      as [e|buttons] eqn:Hqs; cbn [fst snd].
    { exists (inl e), (new1 ++ [Event (QuerySelectorAll "button.btn") (inl e)]).
      rewrite <- app_assoc. split; [done|]. by rewrite stops_after_miss. }
    destruct (click_button_by_text_stops name buttons world
                ((hist ++ new1) ++ [Event (QuerySelectorAll "button.btn") (inr buttons)]) s)
      as (r & new2 & Hrun2 & Hs2).
    rewrite Hrun2. cbn [fst snd].
    destruct r as [e|[|]]; cbn [fst snd].
    + exists (inl e), (new1 ++ Event (QuerySelectorAll "button.btn") (inr buttons) :: new2).
      rewrite <- !app_assoc. split; [done|]. by rewrite stops_after_miss.
    + destruct (settle_calm world
          (((hist ++ new1) ++ [Event (QuerySelectorAll "button.btn") (inr buttons)]) ++ new2) s)
        as (r & new3 & Hrun3 & Hc3).
      exists r, (new1 ++ Event (QuerySelectorAll "button.btn") (inr buttons) :: new2 ++ new3).
      rewrite Hrun3, <- !app_assoc. split; [done|].
      rewrite stops_after_miss by done. cbn [stops_after click_succeeded].
      by apply stops_after_calm.
    + rewrite run_ret_m.
      exists (inr false), (new1 ++ Event (QuerySelectorAll "button.btn") (inr buttons) :: new2).
      rewrite <- !app_assoc. split; [done|]. by rewrite stops_after_miss.
Qed.

(** X15: in [select_procedure] the first click that goes through ends the
    search: after it no selector is clicked, no button list is asked for,
    no button text is read and no button is clicked. *)
Theorem select_procedure_first_match_wins
    (world : env) (hist : list event) (sess : session) (pid : string) :
  is_authenticated sess = true →
  ∃ selected new,
    run world hist (select_procedure pid sess) = ((ok selected, sess), hist ++ new) ∧
    stops_after click_succeeded selection_attempt new = true.
Proof.
  intros Hauth. rewrite select_procedure_unfold by done.
  destruct (select_procedure_body_stops
              (default pid (procedure_map !! pid)) world hist sess)
    as (r & new & Hrun & Hstop).
  rewrite run_try_except, Hrun. cbn [fst snd].
  destruct r as [e|b]; cbn [fst snd].
  - rewrite run_ret_m. by exists false, new.
  - by exists b, new.
Qed.

Lemma select_procedure_first_match_wins_witness :
  ∃ selected new,
    run fixture_world [] (select_procedure "6" (Session true true))
    = ((ok selected, Session true true), [] ++ new) ∧
    stops_after click_succeeded selection_attempt new = true.
Proof.
  apply (select_procedure_first_match_wins fixture_world [] (Session true true) "6").
  reflexivity.
Defined.

Lemma select_first_stops region_id selectors world hist s :
  ∃ b new,
    run world hist (select_first region_id selectors s) = ((ok b, s), hist ++ new) ∧
    stops_after option_selected region_attempt new = true ∧
    (b = false → Forall (λ ev, option_selected ev = false) new).
Proof.
  revert hist. induction selectors as [|selector rest IH]; intros hist.
  - exists false, []. rewrite app_nil_r. split_and!; [done|done|constructor].
  - cbn [select_first]. rewrite run_bind_m, run_try_except, run_bind_m, run_await.
    cbn [fst snd].
    destruct (world hist _ (QuerySelector selector)) as [e|[h|]] eqn:Hq; cbn [fst snd].
    + rewrite run_ret_m. cbn [fst snd].
      destruct (IH (hist ++ [Event (QuerySelector selector) (inl e)]))
        as (b & new & Hrun & Hstop & Hno).
      exists b, (Event (QuerySelector selector) (inl e) :: new).
      rewrite Hrun, <- app_assoc. split_and!; [done|done|].
      intros Hb. constructor; [done|by apply Hno].
    + rewrite run_bind_m, run_await. cbn [fst snd].
      set (h1 := hist ++ [Event (QuerySelector selector) (inr (Some h))]).
      destruct (world h1 _ (SelectOption selector region_id)) as [e|[]] eqn:Ho;
        cbn [fst snd].
      * rewrite run_ret_m. cbn [fst snd].
        destruct (IH (h1 ++ [Event (SelectOption selector region_id) (inl e)]))
          as (b & new & Hrun & Hstop & Hno).
        exists b, (Event (QuerySelector selector) (inr (Some h))
                   :: Event (SelectOption selector region_id) (inl e) :: new).
        rewrite Hrun. unfold h1. rewrite <- !app_assoc.
        split_and!; [done|done|].
        intros Hb. constructor; [done|]. constructor; [done|by apply Hno].
      * rewrite !run_ret_m. cbn [fst snd].
        exists true, [Event (QuerySelector selector) (inr (Some h));
                      Event (SelectOption selector region_id) (inr ())].
        unfold h1. rewrite <- !app_assoc. split_and!; done.
    + rewrite run_ret_m. cbn [fst snd].
      destruct (IH (hist ++ [Event (QuerySelector selector) (inr None)]))
        as (b & new & Hrun & Hstop & Hno).
      exists b, (Event (QuerySelector selector) (inr None) :: new).
      rewrite Hrun, <- app_assoc. split_and!; [done|done|].
      intros Hb. constructor; [done|by apply Hno].
Qed.

Lemma select_region_body_stops region_id world hist s :
  ∃ r new,
    run world hist (select_region_body region_id s) = ((r, s), hist ++ new) ∧
    stops_after option_selected region_attempt new = true.
Proof.
  unfold select_region_body. perform_step.
  set (h1 := hist ++ [Event (Sleep 1) _]).
  destruct (select_first_stops region_id region_selectors world h1 s)
    as (b & new1 & Hrun1 & Hs1 & Hn1).
  rewrite run_bind_m, Hrun1. unfold ok at 1. cbn [fst snd].
  destruct b; cbn [negb].
  - perform_step. await_step.
    set (h2 := (h1 ++ new1) ++ [Event (Sleep 1) _]).
    destruct (world h2 _ (WaitForLoadState "networkidle")) as [e|[]] eqn:Hw;
      cbn [fst snd].
    + eexists (inl e), (_ :: new1 ++ [_; _]).
      unfold h2, h1. rewrite <- !app_assoc. split; [reflexivity|].
      cbn [stops_after option_selected]. by apply stops_after_calm.
    + rewrite run_ret_m.
      eexists (inr true), (_ :: new1 ++ [_; _]).
      unfold h2, h1. rewrite <- !app_assoc. split; [reflexivity|].
      cbn [stops_after option_selected]. by apply stops_after_calm.
  - rewrite run_ret_m. eexists (inr false), (_ :: new1).
    unfold h1. rewrite <- !app_assoc. split; [reflexivity|done].
Qed.

(** X16: in [select_region] the first dropdown in which the region can be
    chosen is the one used: after a choice that did not raise, no further
    dropdown is looked for and no further choice is made. *)
Theorem select_region_first_control_wins
    (world : env) (hist : list event) (sess : session) (rid : string) :
  ∃ selected new,
    run world hist (select_region rid sess) = ((ok selected, sess), hist ++ new) ∧
    stops_after option_selected region_attempt new = true.
Proof.
  change (select_region rid sess)
    with (try_except (select_region_body rid) (λ _, ret_m false) sess).
  destruct (select_region_body_stops rid world hist sess) as (r & new & Hrun & Hstop).
  rewrite run_try_except, Hrun. cbn [fst snd].
  destruct r as [e|b]; cbn [fst snd].
  - rewrite run_ret_m. by exists false, new.
  - by exists b, new.
Qed.

(** ** From the card to the ISO date *)

Lemma padStart_day_number d :
  is_day_line d = true → padStart 2 "0" d = two_digits (parseInt d).
Proof.
  unfold is_day_line, one_or_two_digits.
  intros [[H _]%andb_true_iff _]%andb_true_iff.
  destruct d as [|a [|b [|c d]]]; simpl in H; try done.
  - apply is_digit_char in H as (n & Hn & -> & _).
    do 10 (destruct n as [|n]; [reflexivity|]). lia.
  - apply andb_true_iff in H as [Ha Hb].
    apply is_digit_char in Ha as (n1 & H1 & -> & _).
    apply is_digit_char in Hb as (n2 & H2 & -> & _).
    do 10 (destruct n1 as [|n1];
           [do 10 (destruct n2 as [|n2]; [reflexivity|]); lia|]).
    lia.
Qed.

Lemma is_day_line_range d : is_day_line d = true → 1 ≤ parseInt d ≤ 31.
Proof.
  unfold is_day_line. intros [[_ H1]%andb_true_iff H2]%andb_true_iff.
  apply Nat.leb_le in H1, H2. lia.
Qed.

(** X17: the ISO date of an emitted record.  When a card emits a record,
    [parse_slot_date] of its date succeeds and gives the year of the clock,
    the number of the month line (its place in the list of month names)
    and the number of the day line, between 1 and 31, the last two
    zero-padded to two digits. *)
Theorem emitted_record_iso_date (year : N) (lines : list string) (r : slot) :
  card_record year lines = Some r →
  ∃ i name,
    monthNames !! i = Some name ∧
    lower (last_match is_month_line lines) = lower name ∧
    1 ≤ parseInt (last_match is_day_line lines) ≤ 31 ∧
    parse_slot_date (fechaDisponible r)
    = ok (decimal year +:+ "-" +:+ two_digits (i + 1) +:+ "-"
          +:+ two_digits (parseInt (last_match is_day_line lines))).
Proof.
  unfold card_record. rewrite scan_lines_last. cbn [tok_day tok_month tok_time].
  destruct (truthy (default "" (lines !! 0))) eqn:Ho; [|done].
  destruct (truthy (last_match is_day_line lines)) eqn:Hd; [|done].
  destruct (truthy (last_match is_month_line lines)) eqn:Hm; [|done].
  cbn [andb]. intros [= <-]. cbn [fechaDisponible].
  apply truthy_true in Hd, Hm. apply last_match_holds in Hd, Hm.
  destruct (padStart_day _ Hd) as [Hlen Hdig].
  destruct (month_line_number _ Hm) as (i & name & Hi & Hlow & Hmap).
  exists i, name. split_and!; [done|done|by apply is_day_line_range..|].
  pose proof Hi as Hlt. apply lookup_lt_Some in Hlt.
  change (length monthNames) with 12 in Hlt.
  rewrite Hmap. assert (truthy (two_digits (i + 1)) = true) as -> by done.
  rewrite parse_raw_date; [|done| |done| |apply decimal_digits].
  - by rewrite padStart_day_number.
  - done.
  - apply two_digits_digits. lia.
Qed.

Lemma emitted_record_iso_date_witness :
  ∃ i name,
    monthNames !! i = Some name ∧
    lower (last_match is_month_line two_date_card) = lower name ∧
    1 ≤ parseInt (last_match is_day_line two_date_card) ≤ 31 ∧
    parse_slot_date "07/03/2026"
    = ok (decimal 2026 +:+ "-" +:+ two_digits (i + 1) +:+ "-"
          +:+ two_digits (parseInt (last_match is_day_line two_date_card))).
Proof.
  apply (emitted_record_iso_date 2026 two_date_card
           (Slot "Oficina Centro" "Calle 1" "07/03/2026" "10:30" "")).
  reflexivity.
Defined.
